(** * Gridworld (Grid.py): the environment's state machine

    A shallow embedding of the class [Gridworld] of [Grid.py] and the
    properties of its constructor, [isValid], [inTerminal], [reset] and
    [step].

    Conventions of the embedding:
    - Python integers are [Z]; Python floats and the cells of the numpy
      array are binary64 floats ([PrimFloat.float]), the barrier marker
      [np.NaN] is [nan];
    - a coordinate held by the object ([self.agent], [self.terminal],
      [self.initial_agent]) is the two-element list [[y,x]], embedded as the
      pair [(y, x)]; constructor parameters are [[x,y]] lists, embedded as
      pairs [(x, y)];
    - [self.world] is a two-dimensional numpy array, embedded as the list of
      its rows, with numpy's indexing (negative indices count from the end,
      an index outside the axis raises [IndexError]);
    - a method is a computation in a state-and-exception monad over the
      object's attributes; the pseudo-random samples a call consumes are an
      explicit argument. *)

From Stdlib Require Import ZArith PrimFloat.
From Stdlib Require FloatOps FloatAxioms SpecFloat.
From stdpp Require Import base option list strings pretty.

Set Warnings "-inexact-float".
Open Scope Z_scope.

(** ** Exceptions and the method monad *)

Inductive exn : Type :=
  | IndexError
  | ValueError.

Inductive result (A : Type) : Type :=
  | Ok (a : A)
  | Raise (e : exn).
Arguments Ok {A} a.
Arguments Raise {A} e.

#[global] Instance result_ret : MRet result := fun A a => Ok a.
#[global] Instance result_bind : MBind result := fun A B f m =>
  match m with
  | Ok a => f a
  | Raise e => Raise e
  end.

(** ** Floats *)

(** [np.array_equal(v, np.NaN, equal_nan=True)] on a scalar [v]: the NaN
    masks of the two sides must agree, so it is true exactly when [v] is a
    NaN (the only float that differs from itself). *)
Definition array_equal_nan (v : float) : bool := negb (PrimFloat.eqb v v).

(** ** The numpy array [self.world] *)

Abbreviation ndarray := (list (list float)).

(** [np.zeros(shape=(rows, cols))]; a negative dimension is a [ValueError].
    numpy also refuses a shape too large to index or to allocate
    ([ValueError], [MemoryError]); that limit depends on the machine and is
    not modelled, so what depends on the allocation is stated below for an
    array that [np.zeros] returned. *)
Definition np_zeros (rows cols : Z) : result ndarray :=
  if (rows <? 0) || (cols <? 0) then Raise ValueError
  else Ok (replicate (Z.to_nat rows) (replicate (Z.to_nat cols) 0%float)).

(** An index [i] into an axis of length [n]: [i] itself when [0 <= i < n],
    [i + n] when [-n <= i < 0], otherwise [IndexError]. *)
Definition np_index (n : nat) (i : Z) : result nat :=
  if (0 <=? i) && (i <? Z.of_nat n) then Ok (Z.to_nat i)
  else if (- Z.of_nat n <=? i) && (i <? 0) then Ok (Z.to_nat (i + Z.of_nat n))
  else Raise IndexError.

Definition from_option {A} (e : exn) (o : option A) : result A :=
  match o with
  | Some a => Ok a
  | None => Raise e
  end.

(** [a[i, j]] *)
Definition np_getitem (a : ndarray) (i j : Z) : result float :=
  i' ← np_index (length a) i;
  row ← from_option IndexError (a !! i');
  j' ← np_index (length row) j;
  from_option IndexError (row !! j').

(** [a[i, j] = v] *)
Definition np_setitem (a : ndarray) (i j : Z) (v : float) : result ndarray :=
  i' ← np_index (length a) i;
  row ← from_option IndexError (a !! i');
  j' ← np_index (length row) j;
  Ok (<[i' := <[j' := v]> row]> a).

(** ** The object *)

(** The attributes [__init__] assigns, under the names it gives them. *)
Module Self.
Record Gridworld : Type := {
  x_dim : Z;
  y_dim : Z;
  epsilon : float;
  agent : Z * Z;          (* [y,x] *)
  initial_agent : Z * Z;  (* [y,x] *)
  terminal : Z * Z;       (* [y,x] *)
  action : list string;
  world : ndarray
}.

Definition with_agent (p : Z * Z) (self : Gridworld) : Gridworld :=
  {| x_dim := x_dim self; y_dim := y_dim self; epsilon := epsilon self;
     agent := p; initial_agent := initial_agent self;
     terminal := terminal self; action := action self;
     world := world self |}.
End Self.
Abbreviation Gridworld := Self.Gridworld.

(** A method body: it reads and assigns attributes of [self] and either
    returns a value or raises. *)
Definition method (A : Type) : Type := Gridworld → result (A * Gridworld).

#[global] Instance method_ret : MRet method := fun A a self => Ok (a, self).
#[global] Instance method_bind : MBind method := fun A B f m self =>
  match m self with
  | Ok (a, self') => f a self'
  | Raise e => Raise e
  end.

(** [self.f] *)
Definition attr {A} (f : Gridworld → A) : method A := fun self => Ok (f self, self).
(** [self.agent = p] *)
Definition set_agent (p : Z * Z) : method unit :=
  fun self => Ok ((), Self.with_agent p self).
(** a library call that may raise *)
Definition call {A} (r : result A) : method A :=
  fun self => match r with Ok a => Ok (a, self) | Raise e => Raise e end.

(** [for x in l: s = body(x, s)] *)
Fixpoint for_each {A S} (l : list A) (body : A → S → result S) (s : S) : result S :=
  match l with
  | [] => Ok s
  | x :: l' => s' ← body x s; for_each l' body s'
  end.

(** ** Random sampling *)

(** The samples one call of [step] may consume from numpy's generator: the
    uniform sample in [[0,1)] behind [np.random.choice(..., p=...)] and the
    integer behind [np.random.choice(n)]. *)
Record samples : Type := {
  uniform_sample : float;
  randint_sample : Z
}.

(** [np.sqrt(np.finfo(np.float64).eps)], the tolerance of the check that
    the probabilities sum to 1. *)
Definition atol : float := sqrt 0x1p-52%float.

(** [np.random.choice([True, False], p=[p0, p1])] with uniform sample [u]:
    the probabilities are checked (no NaN, none negative, sum 1 within
    [atol]); the index is found by searching [u] in the normalised cumulative
    sums [cdf] from the right (the first [i] with [u < cdf[i]]). *)
Definition random_choice_p (p0 p1 : float) (u : float) : result bool :=
  let p_sum := (p0 + p1)%float in
  if array_equal_nan p_sum then Raise ValueError
  else if (p0 <? 0)%float || (p1 <? 0)%float then Raise ValueError
  else if (atol <? abs (p_sum - 1))%float then Raise ValueError
  else
    let cdf0 := (p0 / (p0 + p1))%float in
    let cdf1 := ((p0 + p1) / (p0 + p1))%float in
    let idx := if (u <? cdf0)%float then 0%nat
               else if (u <? cdf1)%float then 1%nat else 2%nat in
    from_option IndexError ([true; false] !! idx).

(** [np.random.choice(n)] with integer sample [k] (drawn from [0 .. n-1]);
    [n <= 0] is a [ValueError]. *)
Definition random_choice_n (n : Z) (k : Z) : result Z :=
  if n <=? 0 then Raise ValueError else Ok k.

(** ** The class [Gridworld] *)

(** Python's [==] on two-element integer lists. *)
Definition list_eq (p q : Z * Z) : bool := (p.1 =? q.1) && (p.2 =? q.2).

Definition __init__ (x_dim y_dim : Z) (epsilon : float) (start terminal : Z * Z)
    (neg_reward : list (Z * Z * float)) (barrier : list (Z * Z)) : result Gridworld :=
  let agent := (start.2, start.1) in
  let initial_agent := (start.2, start.1) in
  let terminal := (terminal.2, terminal.1) in
  let action := ["up"; "down"; "left"; "right"]%string in
  (* create empty gridworld *)
  world ← np_zeros y_dim x_dim;
  (* put terminal *)
  world ← np_setitem world terminal.1 terminal.2 10%float;
  (* put negative rewards in gridworld *)
  world ← for_each neg_reward
             (λ '(r0, r1, r2) world, np_setitem world r1 r0 r2) world;
  (* put barrier in gridworld *)
  world ← for_each barrier
             (λ '(b0, b1) world, np_setitem world b1 b0 nan) world;
  Ok {| Self.x_dim := x_dim; Self.y_dim := y_dim; Self.epsilon := epsilon;
        Self.agent := agent; Self.initial_agent := initial_agent;
        Self.terminal := terminal; Self.action := action;
        Self.world := world |}.

(** The constructor called with its default arguments. *)
Definition default_Gridworld : result Gridworld :=
  __init__ 5 5 0.1%float (0, 0) (4, 0)
    [(0, 4, (-1)%float); (2, 1, (-1)%float); (4, 4, (-1)%float)]
    [(1, 2); (2, 0); (2, 3)].

Definition isValid (x y : Z) : method bool :=
  x_dim ← attr Self.x_dim;
  y_dim ← attr Self.y_dim;
  (* check whether in the Gridworld *)
  if (0 <=? x) && (x <? x_dim) && (0 <=? y) && (y <? y_dim) then
    (* check whether the state is a barrier *)
    world ← attr Self.world;
    v ← call (np_getitem world y x);
    if negb (array_equal_nan v) then mret true else mret false
  else mret false.

Definition inTerminal : method bool :=
  agent ← attr Self.agent;
  terminal ← attr Self.terminal;
  if list_eq agent terminal then mret true else mret false.

Definition reset : method (Z * Z) :=
  initial_agent ← attr Self.initial_agent;
  set_agent initial_agent;;
  attr Self.initial_agent.

(** The state transition policy of [step]: the action that is executed. *)
Definition transition_policy (action : Z) (s : samples) : method Z :=
  epsilon ← attr Self.epsilon;
  take_action ← call (random_choice_p (1 - epsilon) epsilon (uniform_sample s));
  (* take random action *)
  if negb take_action then
    actions ← attr Self.action;
    call (random_choice_n (Z.of_nat (length actions)) (randint_sample s))
  else mret action.

(** The new place [(y, x)] of [step] after [action] from [(y, x)]. *)
Definition new_place (action : Z) (p : Z * Z) : Z * Z :=
  let '(y, x) := p in
  if action =? 0 then (y - 1, x)        (* up *)
  else if action =? 1 then (y + 1, x)   (* down *)
  else if action =? 2 then (y, x - 1)   (* left *)
  else if action =? 3 then (y, x + 1)   (* right *)
  else (y, x).

(** [step], with the value the local [reward] is initialised to as a
    parameter. *)
Definition step_from (reward0 : float) (action : Z) (s : samples)
    : method ((Z * Z) * float * bool) :=
  action ← transition_policy action s;
  (* get new place after action *)
  agent ← attr Self.agent;
  let '(y, x) := new_place action agent in
  (* gets the reward later *)
  let reward := reward0 in
  (* check if action is valid, then do action *)
  valid ← isValid x y;
  reward ← (if (valid : bool) return method float then
              set_agent (y, x);;
              agent ← attr Self.agent;
              world ← attr Self.world;
              call (np_getitem world agent.1 agent.2)
            else mret (-0.5)%float);
  (* return state of agent, reward, if new state is terminal *)
  agent ← attr Self.agent;
  terminal ← inTerminal;
  mret (agent, reward, terminal).

(** [step]: the local [reward] starts as [-0.1]. *)
Definition step (action : Z) (s : samples) : method ((Z * Z) * float * bool) :=
  step_from (-0.1)%float action s.

(** The getters. *)
Definition getXdim : method Z := attr Self.x_dim.

Definition getYdim : method Z := attr Self.y_dim.

Definition getActions : method (list string) := attr Self.action.

Definition getTerminal : method (Z * Z) := attr Self.terminal. (* [y,x] *)

Definition getState : method (Z * Z) := attr Self.agent. (* [y,x] *)

(** ** The console: [clearConsole] and [visualize] *)

(** What reaches the console: a command given to [os.system], a line given
    to [print]. *)
Inductive event : Type :=
  | System (command : string)
  | Print (line : string).

(** The exceptions of [visualize]: those of the array, and the
    [OverflowError] of [int] on an infinite float. *)
Inductive console_exn : Type :=
  | Exn (e : exn)
  | OverflowError.

(** [clearConsole], with the value of [os.name]. *)
Definition clearConsole (os_name : string) : list event :=
  let command := "clear"%string in
  let command :=
    if String.eqb os_name "nt" || String.eqb os_name "dos" then "cls"%string
    else command in
  [System command].

(** [s[-n:]]: the last [n] characters of [s], all of [s] when it is
    shorter. *)
Definition last_chars (n : nat) (s : string) : string :=
  String.substring (String.length s - n) n s.

(** [int(v)] on a float: the integer part, towards zero; no integer for an
    infinity or a NaN. *)
Definition int_of_float (v : float) : console_exn + Z :=
  match FloatOps.Prim2SF v with
  | SpecFloat.S754_zero _ => inr 0
  | SpecFloat.S754_infinity _ => inl OverflowError
  | SpecFloat.S754_nan => inl (Exn ValueError)
  | SpecFloat.S754_finite s m e =>
      let n := Z.shiftl (Z.pos m) e in
      inr (if s then - n else n)
  end.

(** [for x in l: s = body(x, s)] for a body that may raise a console
    exception. *)
Fixpoint for_in {E A S} (l : list A) (body : A → S → E + S) (s : S) : E + S :=
  match l with
  | [] => inr s
  | x :: l' =>
      match body x s with
      | inl e => inl e
      | inr s' => for_in l' body s'
      end
  end.

(** The body of the inner loop of [visualize]: the cell [(y, x)] appended
    to the three lines of row [y]. *)
Definition visualize_cell (self : Gridworld) (y x : Z)
    (lines : string * string * string) : console_exn + (string * string * string) :=
  let '(firstLine, thisLine, nextLine) := lines in
  match np_getitem (Self.world self) y x with
  | Raise e => inl (Exn e)
  | Ok val =>
      (* print one field if agent is there *)
      let nextLine :=
        if list_eq (y, x) (Self.agent self) then (nextLine +:+ "__A__|")%string
        else if array_equal_nan val then (nextLine +:+ "XXXXX|")%string
        else (nextLine +:+ "_____|")%string in
      (* print values on field *)
      if (val =? 0)%float then
        inr ((firstLine +:+ "     |")%string,
             (thisLine +:+ "     " +:+ "|")%string, nextLine)
      else if array_equal_nan val then
        inr ((firstLine +:+ "XXXXX|")%string,
             (thisLine +:+ "XXXXX" +:+ "|")%string, nextLine)
      else
        match int_of_float val with
        | inl e => inl e
        | inr n =>
            inr ((firstLine +:+ "     |")%string,
                 (thisLine +:+ last_chars 5 ("     " +:+ pretty n) +:+ "|")%string,
                 nextLine)
        end
  end.

(** The three lines of row [y]. *)
Definition visualize_row (self : Gridworld) (y : Z)
    : console_exn + (string * string * string) :=
  let firstLine := "    ||"%string in
  let thisLine := last_chars 6 ("      " +:+ pretty y +:+ " ||") in
  let nextLine := "____||"%string in
  for_in (seqZ 0 (Self.x_dim self)) (visualize_cell self y)
    (firstLine, thisLine, nextLine).

(** The outer loop: each row is printed once its lines are complete; an
    exception ends the loop after the rows printed so far. *)
Fixpoint visualize_rows (self : Gridworld) (ys : list Z)
    : list event * option console_exn :=
  match ys with
  | [] => ([], None)
  | y :: ys' =>
      match visualize_row self y with
      | inl e => ([], Some e)
      | inr (firstLine, thisLine, nextLine) =>
          let '(events, raised) := visualize_rows self ys' in
          (Print firstLine :: Print thisLine :: Print nextLine :: events, raised)
      end
  end.

(** The three lines at the bottom of the print, after column [x]. *)
Definition visualize_bottom (lines : string * string * string) (x : Z)
    : string * string * string :=
  let '(topLine, line, middleLine) := lines in
  ((topLine +:+ "_____|")%string,
   (line +:+ "     |")%string,
   (middleLine +:+ last_chars 6 ("      " +:+ pretty x +:+ " |"))%string).

(** [visualize]: the events it sends to the console and the exception that
    ended it, if any. It assigns no attribute. *)
Definition visualize (os_name : string) (self : Gridworld)
    : list event * option console_exn :=
  let '(rows, raised) :=
    visualize_rows self (seqZ 0 (Self.y_dim self)) in
  let printed := clearConsole os_name ++ [Print ""%string] ++ rows in
  match raised with
  | Some e => (printed, Some e)
  | None =>
      let '(topLine, line, middleLine) :=
        fold_left visualize_bottom (seqZ 0 (Self.x_dim self))
          ("____||", "    ||", "    ||")%string in
      (printed ++ [Print topLine; Print line; Print middleLine; Print line;
                   Print ""%string], None)
  end.

(** * Vocabulary of the properties *)

(** ** Arrays and the object invariant *)

(** The canonical (non-negative) form of an index accepted by an axis of
    length [n]. *)
Definition wrap (n i : Z) : Z := if i <? 0 then i + n else i.

(** [a] has [rows] rows of [cols] cells each. *)
Definition shaped (rows cols : Z) (a : ndarray) : Prop :=
  Z.of_nat (length a) = rows ∧ Forall (λ r, Z.of_nat (length r) = cols) a.

(** Whether [(x, y)] lies in the rectangle [isValid] tests. *)
Definition in_bounds (self : Gridworld) (x y : Z) : bool :=
  (0 <=? x) && (x <? Self.x_dim self) && (0 <=? y) && (y <? Self.y_dim self).

(** The array has the dimensions the object records, and the action list is
    not empty. *)
Definition well_formed (self : Gridworld) : Prop :=
  shaped (Self.y_dim self) (Self.x_dim self) (Self.world self)
  ∧ (0 < length (Self.action self))%nat.

(** ** Layers *)

(** The grid as the specification words it: a value for every canonical
    (row, column), built by layers, each overwriting the cells it names. *)
Definition layer : Type := Z → Z → float.

Definition base_layer : layer := λ _ _, 0%float.

(** The coordinate [[x,y]] names the cell in row [i], column [j]. *)
Definition names (rows cols : Z) (x y : Z) (i j : Z) : bool :=
  (wrap rows y =? i) && (wrap cols x =? j).

(** Overwrite the cell the coordinate [[x,y]] names with [v]. *)
Definition put (rows cols : Z) (x y : Z) (v : float) (f : layer) : layer :=
  λ i j, if names rows cols x y i j then v else f i j.

(** Base layer of zeros, then the terminal's 10, then each negative reward
    in order, then each barrier in order. *)
Definition layered_grid (x_dim y_dim : Z) (terminal : Z * Z)
    (neg_reward : list (Z * Z * float)) (barrier : list (Z * Z)) : layer :=
  let with_terminal := put y_dim x_dim terminal.1 terminal.2 10%float base_layer in
  let with_rewards :=
    fold_left (λ f '(x, y, v), put y_dim x_dim x y v f) neg_reward with_terminal in
  fold_left (λ f '(x, y), put y_dim x_dim x y nan f) barrier with_rewards.

(** The array [a] holds the values of [f]. *)
Definition reads (rows cols : Z) (a : ndarray) (f : layer) : Prop :=
  ∀ i j, 0 <= i < rows → 0 <= j < cols → np_getitem a i j = Ok (f i j).

(** The value the layers leave at the (in-bounds) terminal cell when no
    barrier names it: that of the last negative-reward entry naming the
    cell, and 10 when there is none. *)
Definition terminal_cell_reward (x_dim y_dim : Z) (terminal : Z * Z)
    (neg_reward : list (Z * Z * float)) : float :=
  match
    last (List.filter
            (λ '(x, y, _), names y_dim x_dim x y terminal.2 terminal.1)
            neg_reward)
  with
  | Some (_, _, v) => v
  | None => 10%float
  end.

(** ** States, actions and samples *)

(** The objects a caller can observe: the constructed one, and the ones left
    by any sequence of [step] (whatever the action and the samples) and
    [reset] calls. A call that raises does so before it assigns anything
    (lemma [step_raises_in_policy]), so it leaves no further object. *)
Inductive reachable (init : Gridworld) : Gridworld → Prop :=
  | reachable_init : reachable init init
  | reachable_step self action s r self' :
      reachable init self → step action s self = Ok (r, self') →
      reachable init self'
  | reachable_reset self r self' :
      reachable init self → reset self = Ok (r, self') →
      reachable init self'.

(** The four action symbols, the integer [step] expects for each, and the
    unit change of (row, column) the specification gives each. *)
Inductive direction : Type := up | down | left | right.

Definition code (d : direction) : Z :=
  match d with up => 0 | down => 1 | left => 2 | right => 3 end.

Definition delta (d : direction) : Z * Z :=
  match d with
  | up => (-1, 0)
  | down => (1, 0)
  | left => (0, -1)
  | right => (0, 1)
  end.

(** What the generator's uniform sample satisfies: it lies in [[0, 1)]. *)
Definition unit_interval (u : float) : Prop :=
  (0 <=? u)%float = true ∧ (u <? 1)%float = true.

(** ** Construction, console and moves *)

(** The constructor's arguments numpy accepts: dimensions that are not
    negative, and every coordinate within the axes (negative indices
    included). *)
Definition axis_accepts (n i : Z) : Prop := - n <= i < n.

Definition coordinates_accepted (x_dim y_dim : Z) (terminal : Z * Z)
    (neg_reward : list (Z * Z * float)) (barrier : list (Z * Z)) : Prop :=
  0 <= x_dim ∧ 0 <= y_dim
  ∧ (axis_accepts y_dim terminal.2 ∧ axis_accepts x_dim terminal.1)
  ∧ Forall (λ r, axis_accepts y_dim r.1.2 ∧ axis_accepts x_dim r.1.1) neg_reward
  ∧ Forall (λ b, axis_accepts y_dim b.2 ∧ axis_accepts x_dim b.1) barrier.

(** A printed line of the given width. *)
Definition printed_line (width : nat) (ev : event) : Prop :=
  ∃ line, ev = Print line ∧ String.length line = width.

(** An infinite float. *)
Definition is_infinite (v : float) : bool :=
  match FloatOps.Prim2SF v with
  | SpecFloat.S754_infinity _ => true
  | _ => false
  end.

(** The cell [(y, x)] of the array holds an infinite float. *)
Definition infinite_at (self : Gridworld) (y x : Z) : bool :=
  match np_getitem (Self.world self) y x with
  | Ok v => is_infinite v
  | Raise _ => false
  end.

(** The action that undoes a move. *)
Definition opposite (d : direction) : direction :=
  match d with up => down | down => up | left => right | right => left end.

(** ** Example environments *)

(** The constructor's defaults, as an object. *)
Definition default_world : Gridworld :=
  {| Self.x_dim := 5; Self.y_dim := 5; Self.epsilon := 0.1%float;
     Self.agent := (0, 0); Self.initial_agent := (0, 0);
     Self.terminal := (0, 4);
     Self.action := ["up"; "down"; "left"; "right"]%string;
     Self.world :=
       [[0; 0; nan; 0; 10]; [0; 0; -1; 0; 0]; [0; nan; 0; 0; 0];
        [0; 0; nan; 0; 0]; [-1; 0; 0; 0; -1]]%float |}.

(** The default grid with [epsilon = 0]. *)
Definition quiet_world : Gridworld :=
  {| Self.x_dim := 5; Self.y_dim := 5; Self.epsilon := 0%float;
     Self.agent := (0, 0); Self.initial_agent := (0, 0);
     Self.terminal := (0, 4);
     Self.action := ["up"; "down"; "left"; "right"]%string;
     Self.world := Self.world default_world |}.

(** A sample that keeps the requested action when [epsilon] is 0.1. *)
Definition keep_sample : samples :=
  {| uniform_sample := 0.5%float; randint_sample := 2 |}.

(** A grid whose reward list names the terminal cell: 1 row, 2 columns,
    start [[0,0]], terminal [[1,0]], negative reward [-1] at [[1,0]]. *)
Definition overwritten_terminal_world : Gridworld :=
  {| Self.x_dim := 2; Self.y_dim := 1; Self.epsilon := 0%float;
     Self.agent := (0, 0); Self.initial_agent := (0, 0);
     Self.terminal := (0, 1);
     Self.action := ["up"; "down"; "left"; "right"]%string;
     Self.world := [[0; -1]]%float |}.

(** The default grid with [epsilon = 1], and with [epsilon = 2]. *)
Definition loud_world : Gridworld :=
  {| Self.x_dim := 5; Self.y_dim := 5; Self.epsilon := 1%float;
     Self.agent := (0, 0); Self.initial_agent := (0, 0);
     Self.terminal := (0, 4);
     Self.action := ["up"; "down"; "left"; "right"]%string;
     Self.world := Self.world default_world |}.

Definition bad_epsilon_world : Gridworld :=
  {| Self.x_dim := 5; Self.y_dim := 5; Self.epsilon := 2%float;
     Self.agent := (0, 0); Self.initial_agent := (0, 0);
     Self.terminal := (0, 4);
     Self.action := ["up"; "down"; "left"; "right"]%string;
     Self.world := Self.world default_world |}.

(** One row, two columns, start [[0,0]]: with the terminal given as
    [[-1,0]], and with the terminal [[1,0]] also listed as a barrier. *)
Definition negative_terminal_world : Gridworld :=
  {| Self.x_dim := 2; Self.y_dim := 1; Self.epsilon := 0%float;
     Self.agent := (0, 0); Self.initial_agent := (0, 0);
     Self.terminal := (0, -1);
     Self.action := ["up"; "down"; "left"; "right"]%string;
     Self.world := [[0; 10]]%float |}.

Definition barrier_terminal_world : Gridworld :=
  {| Self.x_dim := 2; Self.y_dim := 1; Self.epsilon := 0%float;
     Self.agent := (0, 0); Self.initial_agent := (0, 0);
     Self.terminal := (0, 1);
     Self.action := ["up"; "down"; "left"; "right"]%string;
     Self.world := [[0; nan]]%float |}.

(** * Properties *)

Example getitem_wraps :
  np_getitem [[1; 2]; [3; 4]]%float (-1) (-2) = Ok 3%float.
Proof. reflexivity. Qed.

Example nan_is_barrier : array_equal_nan nan = true.
Proof. reflexivity. Qed.

(** Reduce the binds of the exception monad. *)
Ltac rsimpl :=
  try unfold mbind; try unfold result_bind; try unfold mret;
  try unfold result_ret; try unfold from_option; cbn beta iota.

(** ** Array indexing *)

Lemma np_index_Ok n i k :
  np_index n i = Ok k ↔
  (- Z.of_nat n <= i < Z.of_nat n) ∧ k = Z.to_nat (wrap (Z.of_nat n) i).
Proof.
  unfold np_index, wrap.
  destruct (Z.leb_spec 0 i), (Z.ltb_spec i (Z.of_nat n)),
    (Z.leb_spec (- Z.of_nat n) i), (Z.ltb_spec i 0); rsimpl;
    split; try (intros [= <-]); try (intros [? ->]); try done;
    try (split; [lia | done]); lia.
Qed.

Lemma wrap_range n i : - n <= i < n → 0 <= wrap n i < n.
Proof. unfold wrap. destruct (Z.ltb_spec i 0); lia. Qed.

Lemma wrap_canonical n i : 0 <= i → wrap n i = i.
Proof. unfold wrap. destruct (Z.ltb_spec i 0); lia. Qed.

Lemma shaped_row rows cols a r row :
  shaped rows cols a → a !! r = Some row → Z.of_nat (length row) = cols.
Proof.
  intros [_ Hall] Hr. rewrite Forall_forall in Hall.
  apply Hall, list_elem_of_lookup. eauto.
Qed.

Lemma shaped_zeros rows cols a : np_zeros rows cols = Ok a → shaped rows cols a.
Proof.
  unfold np_zeros.
  destruct (Z.ltb_spec rows 0), (Z.ltb_spec cols 0); rsimpl; try done.
  intros [= <-]. split.
  - rewrite length_replicate. lia.
  - apply Forall_forall. intros r Hr.
    apply elem_of_replicate in Hr as [-> _].
    rewrite length_replicate. lia.
Qed.

(** Reading a cell of a shaped array: the two indices are wrapped
    independently and the cell exists. *)
Lemma np_getitem_shaped rows cols a i j :
  shaped rows cols a → - rows <= i < rows → - cols <= j < cols →
  ∃ row v,
    a !! Z.to_nat (wrap rows i) = Some row ∧
    row !! Z.to_nat (wrap cols j) = Some v ∧
    np_getitem a i j = Ok v.
Proof.
  intros Hs Hi Hj. pose proof Hs as [Hlen _]. subst rows.
  pose proof (wrap_range _ _ Hi) as Hwi.
  destruct (lookup_lt_is_Some_2 a (Z.to_nat (wrap (Z.of_nat (length a)) i)))
    as [row Hrow]; [lia |].
  pose proof (shaped_row _ _ _ _ _ Hs Hrow) as Hcols. subst cols.
  pose proof (wrap_range _ _ Hj) as Hwj.
  destruct (lookup_lt_is_Some_2 row (Z.to_nat (wrap (Z.of_nat (length row)) j)))
    as [v Hv]; [lia |].
  exists row, v. split_and!; try done.
  unfold np_getitem.
  assert (np_index (length a) i = Ok (Z.to_nat (wrap (Z.of_nat (length a)) i)))
    as -> by (by apply np_index_Ok).
  rsimpl. rewrite Hrow. rsimpl.
  assert (np_index (length row) j = Ok (Z.to_nat (wrap (Z.of_nat (length row)) j)))
    as -> by (by apply np_index_Ok).
  rsimpl. by rewrite Hv.
Qed.

Lemma np_getitem_wrap rows cols a i j :
  shaped rows cols a → - rows <= i < rows → - cols <= j < cols →
  np_getitem a i j = np_getitem a (wrap rows i) (wrap cols j).
Proof.
  intros Hs Hi Hj.
  pose proof (wrap_range _ _ Hi) as Hwi. pose proof (wrap_range _ _ Hj) as Hwj.
  destruct (np_getitem_shaped _ _ _ i j Hs Hi Hj) as (row & v & Hr & Hv & ->).
  destruct (np_getitem_shaped _ _ _ (wrap rows i) (wrap cols j) Hs)
    as (row' & v' & Hr' & Hv' & ->); [lia | lia |].
  rewrite wrap_canonical in Hr' by lia. rewrite wrap_canonical in Hv' by lia.
  congruence.
Qed.

(** An assignment succeeds exactly on indices the two axes accept. *)
Lemma np_setitem_Ok_range rows cols a i j v a' :
  shaped rows cols a → np_setitem a i j v = Ok a' →
  - rows <= i < rows ∧ - cols <= j < cols.
Proof.
  intros Hs. pose proof Hs as [Hlen _]. unfold np_setitem.
  destruct (np_index (length a) i) as [i'|] eqn:Hi; rsimpl; [|done].
  apply np_index_Ok in Hi as [Hi ->].
  destruct (a !! _) as [row|] eqn:Hrow; rsimpl; [|done].
  pose proof (shaped_row _ _ _ _ _ Hs Hrow) as Hcols.
  destruct (np_index (length row) j) as [j'|] eqn:Hj; rsimpl; [|done].
  apply np_index_Ok in Hj as [Hj ->]. intros _. lia.
Qed.

Lemma np_setitem_in_range rows cols a i j v :
  shaped rows cols a → - rows <= i < rows → - cols <= j < cols →
  ∃ a', np_setitem a i j v = Ok a'.
Proof.
  intros Hs Hi Hj.
  destruct (np_getitem_shaped _ _ _ i j Hs Hi Hj) as (row & w & Hr & Hv & _).
  pose proof Hs as [Hlen _].
  pose proof (shaped_row _ _ _ _ _ Hs Hr) as Hcols.
  unfold np_setitem. subst rows cols.
  assert (np_index (length a) i = Ok (Z.to_nat (wrap (Z.of_nat (length a)) i)))
    as -> by (by apply np_index_Ok).
  rsimpl. rewrite Hr. rsimpl.
  assert (np_index (length row) j = Ok (Z.to_nat (wrap (Z.of_nat (length row)) j)))
    as -> by (by apply np_index_Ok).
  rsimpl. eauto.
Qed.

(** An assignment keeps the shape, and changes the one cell it names. *)
Lemma np_setitem_shaped rows cols a i j v a' :
  shaped rows cols a → np_setitem a i j v = Ok a' → shaped rows cols a'.
Proof.
  intros Hs. pose proof Hs as [Hlen Hall]. unfold np_setitem.
  destruct (np_index (length a) i) as [i'|] eqn:Hi; rsimpl; [|done].
  destruct (a !! i') as [row|] eqn:Hrow; rsimpl; [|done].
  pose proof (shaped_row _ _ _ _ _ Hs Hrow) as Hcols.
  destruct (np_index (length row) j) as [j'|] eqn:Hj; rsimpl; [|done].
  intros [= <-]. split.
  - by rewrite length_insert.
  - apply Forall_insert; [done |]. by rewrite length_insert.
Qed.

Lemma np_getitem_setitem rows cols a i j v a' i' j' :
  shaped rows cols a → np_setitem a i j v = Ok a' →
  0 <= i' < rows → 0 <= j' < cols →
  np_getitem a' i' j' =
    if (wrap rows i =? i') && (wrap cols j =? j') then Ok v
    else np_getitem a i' j'.
Proof.
  intros Hs Hset Hi' Hj'.
  pose proof (np_setitem_shaped _ _ _ _ _ _ _ Hs Hset) as Hs'.
  destruct (np_setitem_Ok_range _ _ _ _ _ _ _ Hs Hset) as [Hi Hj].
  destruct (np_getitem_shaped _ _ _ i' j' Hs) as (r0 & v0 & Hr0 & Hv0 & ->);
    [lia | lia |].
  destruct (np_getitem_shaped _ _ _ i' j' Hs') as (r1 & v1 & Hr1 & Hv1 & ->);
    [lia | lia |].
  rewrite wrap_canonical in Hr0 by lia. rewrite wrap_canonical in Hv0 by lia.
  rewrite wrap_canonical in Hr1 by lia. rewrite wrap_canonical in Hv1 by lia.
  pose proof (wrap_range _ _ Hi) as Hwi. pose proof (wrap_range _ _ Hj) as Hwj.
  pose proof Hs as [Hlen _]. revert Hset. unfold np_setitem.
  destruct (np_index (length a) i) as [ki|] eqn:Hki; rsimpl; [|done].
  apply np_index_Ok in Hki as [_ ->]. rewrite Hlen.
  destruct (a !! Z.to_nat (wrap rows i)) as [row|] eqn:Hrow; rsimpl; [|done].
  pose proof (shaped_row _ _ _ _ _ Hs Hrow) as Hcols.
  destruct (np_index (length row) j) as [kj|] eqn:Hkj; rsimpl; [|done].
  apply np_index_Ok in Hkj as [_ ->]. rewrite Hcols. intros [= <-].
  destruct (Z.eqb_spec (wrap rows i) i') as [Heq|Hne]; rsimpl.
  - subst i'. rewrite list_lookup_insert_eq in Hr1 by (apply lookup_lt_is_Some; eauto).
    injection Hr1 as <-. assert (r0 = row) as -> by congruence.
    destruct (Z.eqb_spec (wrap cols j) j') as [Heq|Hne].
    + subst j'. rewrite list_lookup_insert_eq in Hv1 by lia. simpl. congruence.
    + rewrite list_lookup_insert_ne in Hv1 by lia. simpl. congruence.
  - rewrite list_lookup_insert_ne in Hr1 by lia. simpl. congruence.
Qed.

(** ** Running a method *)

(** Reduce the binds and attribute accesses of the method monad. *)
Ltac msimpl :=
  try unfold mbind; try unfold method_bind; try unfold mret;
  try unfold method_ret; try unfold attr; try unfold call;
  try unfold set_agent; cbn beta iota.

Lemma isValid_run x y self :
  isValid x y self =
    if in_bounds self x y then
      match np_getitem (Self.world self) y x with
      | Ok v => Ok (negb (array_equal_nan v), self)
      | Raise e => Raise e
      end
    else Ok (false, self).
Proof.
  unfold isValid, in_bounds. msimpl.
  destruct (_ && _); [|done].
  destruct (np_getitem _ _ _) as [v|]; [|done].
  by destruct (array_equal_nan v).
Qed.

Lemma inTerminal_run self :
  inTerminal self = Ok (list_eq (Self.agent self) (Self.terminal self), self).
Proof. unfold inTerminal. msimpl. by destruct (list_eq _ _). Qed.

Lemma reset_run self :
  reset self =
    Ok (Self.initial_agent self, Self.with_agent (Self.initial_agent self) self).
Proof. reflexivity. Qed.

(** The transition policy only draws samples: it assigns no attribute. *)
Lemma transition_policy_pure action s self a self' :
  transition_policy action s self = Ok (a, self') → self' = self.
Proof.
  unfold transition_policy. msimpl.
  destruct (random_choice_p _ _ _) as [[]|]; cbn; try done.
  - by intros [= _ <-].
  - destruct (random_choice_n _ _); [|done]. by intros [= _ <-].
Qed.

(** [step] unfolded: the executed action, the validity gate, the reward. *)
Lemma step_from_run reward0 action s self :
  step_from reward0 action s self =
    match transition_policy action s self with
    | Raise e => Raise e
    | Ok (a, _) =>
        let p := new_place a (Self.agent self) in
        match isValid p.2 p.1 self with
        | Raise e => Raise e
        | Ok (true, _) =>
            match np_getitem (Self.world self) p.1 p.2 with
            | Ok v => Ok (p, v, list_eq p (Self.terminal self),
                          Self.with_agent p self)
            | Raise e => Raise e
            end
        | Ok (false, _) =>
            Ok (Self.agent self, (-0.5)%float,
                list_eq (Self.agent self) (Self.terminal self), self)
        end
    end.
Proof.
  unfold step_from. msimpl.
  destruct (transition_policy action s self) as [[a self']|] eqn:Hpol; [|done].
  apply transition_policy_pure in Hpol as ->.
  destruct (new_place a (Self.agent self)) as [y x] eqn:Hp. cbn [fst snd].
  rewrite isValid_run.
  destruct (in_bounds self x y).
  - destruct (np_getitem (Self.world self) y x) as [v|] eqn:Hv; [|done].
    destruct (negb (array_equal_nan v)); cbn.
    + rewrite Hv. unfold inTerminal. msimpl. cbn.
      by destruct (list_eq _ _).
    + unfold inTerminal. msimpl. by destruct (list_eq _ _).
  - cbn. unfold inTerminal. msimpl. by destruct (list_eq _ _).
Qed.

(** ** The object invariant *)

Lemma with_agent_well_formed p self :
  well_formed self → well_formed (Self.with_agent p self).
Proof. by intros []. Qed.

Lemma in_bounds_range self x y :
  in_bounds self x y = true ↔
  0 <= y < Self.y_dim self ∧ 0 <= x < Self.x_dim self.
Proof. unfold in_bounds. rewrite !andb_true_iff. lia. Qed.

(** On a well-formed object [isValid] returns, and assigns nothing. *)
Lemma isValid_returns x y self :
  well_formed self → ∃ b, isValid x y self = Ok (b, self).
Proof.
  intros [Hs _]. rewrite isValid_run.
  destruct (in_bounds self x y) eqn:Hb; [|eauto].
  apply in_bounds_range in Hb as [Hy Hx].
  destruct (np_getitem_shaped _ _ _ y x Hs) as (_ & v & _ & _ & ->); [lia..|].
  eauto.
Qed.

(** ** Construction *)

Lemma reads_zeros rows cols a :
  np_zeros rows cols = Ok a → reads rows cols a base_layer.
Proof.
  intros Hz i j Hi Hj. pose proof (shaped_zeros _ _ _ Hz) as Hs.
  destruct (np_getitem_shaped _ _ _ i j Hs) as (row & v & Hr & Hv & ->); [lia..|].
  revert Hz Hr Hv. unfold np_zeros.
  destruct (_ || _); [done|]. intros [= <-].
  intros [-> _]%lookup_replicate [-> _]%lookup_replicate. done.
Qed.

Lemma reads_setitem rows cols a f x y v a' :
  shaped rows cols a → reads rows cols a f → np_setitem a y x v = Ok a' →
  reads rows cols a' (put rows cols x y v f).
Proof.
  intros Hs Hf Hset i j Hi Hj.
  rewrite (np_getitem_setitem _ _ _ _ _ _ _ _ _ Hs Hset Hi Hj).
  unfold put, names. destruct (_ && _); [done|]. by apply Hf.
Qed.

Section Loop.
(** A loop whose body assigns one cell per element, against the fold of
    the corresponding layers. *)
Context {A : Type} (px py : A → Z) (pv : A → float).
Context (body : A → ndarray → result ndarray).
Context (lay : layer → A → layer).
Context (rows cols : Z).
Hypothesis body_eq : ∀ e w, body e w = np_setitem w (py e) (px e) (pv e).
Hypothesis lay_eq : ∀ f e, lay f e = put rows cols (px e) (py e) (pv e) f.

Lemma for_each_setitem l : ∀ a a' f,
  shaped rows cols a → reads rows cols a f → for_each l body a = Ok a' →
  shaped rows cols a' ∧ reads rows cols a' (fold_left lay l f)
  ∧ Forall (λ e, - rows <= py e < rows ∧ - cols <= px e < cols) l.
Proof.
  induction l as [|e l IH]; intros a a' f Hs Hf; cbn [for_each fold_left].
  - intros [= <-]. split_and!; [done | done | constructor].
  - rsimpl. rewrite body_eq.
    destruct (np_setitem a (py e) (px e) (pv e)) as [a1|] eqn:Hset; [|done].
    intros Hloop.
    pose proof (np_setitem_shaped _ _ _ _ _ _ _ Hs Hset) as Hs1.
    pose proof (reads_setitem _ _ _ _ _ _ _ _ Hs Hf Hset) as Hf1.
    rewrite <- lay_eq in Hf1.
    destruct (IH _ _ _ Hs1 Hf1 Hloop) as (? & ? & ?). split_and!; try done.
    constructor; [|done]. exact (np_setitem_Ok_range _ _ _ _ _ _ _ Hs Hset).
Qed.

Lemma for_each_setitem_Ok l : ∀ a,
  shaped rows cols a →
  Forall (λ e, - rows <= py e < rows ∧ - cols <= px e < cols) l →
  ∃ a', for_each l body a = Ok a' ∧ shaped rows cols a'.
Proof.
  induction l as [|e l IH]; intros a Hs Hall; cbn [for_each]; [eauto|].
  apply Forall_cons in Hall as [[Hy Hx] Hall].
  destruct (np_setitem_in_range _ _ _ _ _ (pv e) Hs Hy Hx) as [a1 Hset].
  rsimpl. rewrite body_eq, Hset.
  apply IH; [|done]. eapply np_setitem_shaped; eauto.
Qed.
End Loop.

(** Barrier layers only ever write NaN: once a cell is the barrier value it
    stays so, and every listed barrier is written. *)
Lemma barrier_layers_keep rows cols (barrier : list (Z * Z)) : ∀ (f : layer) i j,
  f i j = nan →
  fold_left (λ f '(x, y), put rows cols x y nan f) barrier f i j = nan.
Proof.
  induction barrier as [|[x y] l IH]; intros f i j Hf; cbn [fold_left]; [done|].
  apply IH. unfold put. by destruct (names _ _ _ _ _ _).
Qed.

Lemma barrier_layers_hit rows cols (barrier : list (Z * Z)) : ∀ (f : layer) x y,
  (x, y) ∈ barrier →
  fold_left (λ f '(x, y), put rows cols x y nan f) barrier f
    (wrap rows y) (wrap cols x) = nan.
Proof.
  induction barrier as [|[x0 y0] l IH]; intros f x y Hin; cbn [fold_left].
  - by apply elem_of_nil in Hin.
  - apply elem_of_cons in Hin as [[= -> ->]|Hin]; [|by apply IH].
    apply barrier_layers_keep. unfold put, names. by rewrite !Z.eqb_refl.
Qed.

(** What a successful construction establishes. *)
Lemma init_inversion x_dim y_dim epsilon start terminal neg_reward barrier self :
  __init__ x_dim y_dim epsilon start terminal neg_reward barrier = Ok self →
  shaped y_dim x_dim (Self.world self)
  ∧ reads y_dim x_dim (Self.world self)
      (layered_grid x_dim y_dim terminal neg_reward barrier)
  ∧ Forall (λ b, - y_dim <= b.2 < y_dim ∧ - x_dim <= b.1 < x_dim) barrier
  ∧ Self.x_dim self = x_dim ∧ Self.y_dim self = y_dim
  ∧ Self.epsilon self = epsilon
  ∧ Self.agent self = (start.2, start.1)
  ∧ Self.initial_agent self = (start.2, start.1)
  ∧ Self.terminal self = (terminal.2, terminal.1)
  ∧ Self.action self = ["up"; "down"; "left"; "right"]%string.
Proof.
  unfold __init__. rsimpl. cbn [fst snd].
  destruct (np_zeros y_dim x_dim) as [w0|] eqn:Hz; [|done].
  pose proof (shaped_zeros _ _ _ Hz) as Hs0.
  pose proof (reads_zeros _ _ _ Hz) as Hf0.
  destruct (np_setitem w0 _ _ _) as [w1|] eqn:Hset; [|done].
  pose proof (np_setitem_shaped _ _ _ _ _ _ _ Hs0 Hset) as Hs1.
  pose proof (reads_setitem _ _ _ _ _ _ _ _ Hs0 Hf0 Hset) as Hf1.
  destruct (for_each neg_reward _ w1) as [w2|] eqn:Hneg; [|done].
  eapply (for_each_setitem (λ r, r.1.1) (λ r, r.1.2) (λ r, r.2)) in Hneg
    as (Hs2 & Hf2 & _); [| | | exact Hs1 | exact Hf1].
  2: { by intros [[??]?] ?. }
  2: { intros f [[x y] v]. by instantiate (1 := λ f '(x, y, v), put _ _ x y v f). }
  destruct (for_each barrier _ w2) as [w3|] eqn:Hbar; [|done].
  eapply (for_each_setitem (λ b, b.1) (λ b, b.2) (λ _, nan)) in Hbar
    as (Hs3 & Hf3 & Hrange); [| | | exact Hs2 | exact Hf2].
  2: { by intros [??] ?. }
  2: { intros f [x y]. by instantiate (1 := λ f '(x, y), put _ _ x y nan f). }
  intros [= <-]. cbn. by split_and!.
Qed.

Lemma init_well_formed x_dim y_dim epsilon start terminal neg_reward barrier self :
  __init__ x_dim y_dim epsilon start terminal neg_reward barrier = Ok self →
  well_formed self.
Proof.
  intros (Hs & _ & _ & Hx & Hy & _ & _ & _ & _ & Hact)%init_inversion.
  unfold well_formed. rewrite Hx, Hy, Hact. split; [done|]. cbn. lia.
Qed.

(** Once [np.zeros] has returned the array, construction succeeds whenever
    every coordinate is one the array's axes accept. *)
Lemma init_returns x_dim y_dim epsilon start terminal neg_reward barrier w0 :
  np_zeros y_dim x_dim = Ok w0 →
  - y_dim <= terminal.2 < y_dim → - x_dim <= terminal.1 < x_dim →
  Forall (λ r, - y_dim <= r.1.2 < y_dim ∧ - x_dim <= r.1.1 < x_dim) neg_reward →
  Forall (λ b, - y_dim <= b.2 < y_dim ∧ - x_dim <= b.1 < x_dim) barrier →
  ∃ self, __init__ x_dim y_dim epsilon start terminal neg_reward barrier = Ok self.
Proof.
  intros Hz Hty Htx Hneg Hbar. unfold __init__. rsimpl. cbn [fst snd].
  rewrite Hz.
  pose proof (shaped_zeros _ _ _ Hz) as Hs0.
  destruct (np_setitem_in_range _ _ _ _ _ 10%float Hs0 Hty Htx) as [w1 Hset].
  rewrite Hset.
  pose proof (np_setitem_shaped _ _ _ _ _ _ _ Hs0 Hset) as Hs1.
  destruct (for_each_setitem_Ok (λ r, r.1.1) (λ r, r.1.2) (λ r, r.2)
              (λ '(r0, r1, r2) world, np_setitem world r1 r0 r2) y_dim x_dim)
    with (l := neg_reward) (a := w1) as (w2 & Hw2 & Hs2); try done.
  { by intros [[??]?] ?. }
  rewrite Hw2.
  destruct (for_each_setitem_Ok (λ b, b.1) (λ b, b.2) (λ _, nan)
              (λ '(b0, b1) world, np_setitem world b1 b0 nan) y_dim x_dim)
    with (l := barrier) (a := w2) as (w3 & Hw3 & Hs3); try done.
  { by intros [??] ?. }
  rewrite Hw3. eauto.
Qed.

(** ** States of an environment *)

Example default_Gridworld_is : default_Gridworld = Ok default_world.
Proof. reflexivity. Qed.

Lemma default_world_well_formed : well_formed default_world.
Proof. split; [split; [done | repeat constructor] | cbn; lia]. Defined.

Lemma with_agent_same self : Self.with_agent (Self.agent self) self = self.
Proof. by destruct self. Qed.

Lemma list_eq_true p q : list_eq p q = true ↔ p = q.
Proof.
  destruct p as [p1 p2], q as [q1 q2]. unfold list_eq. cbn.
  rewrite andb_true_iff, !Z.eqb_eq. split; [intros [-> ->]|intros [= -> ->]]; done.
Qed.

Lemma list_eq_decide p q : list_eq p q = bool_decide (p = q).
Proof.
  destruct (list_eq p q) eqn:Heq.
  - apply list_eq_true in Heq. by rewrite bool_decide_eq_true_2.
  - rewrite bool_decide_eq_false_2; [done|].
    intros ?%list_eq_true. congruence.
Qed.

(** [isValid] looks at the dimensions and the array only. *)
Lemma isValid_with_agent x y p self b :
  isValid x y self = Ok (b, self) →
  isValid x y (Self.with_agent p self) = Ok (b, Self.with_agent p self).
Proof.
  rewrite !isValid_run. change (in_bounds (Self.with_agent p self) x y)
    with (in_bounds self x y). cbn [Self.world Self.with_agent].
  destruct (in_bounds self x y).
  - destruct (np_getitem _ _ _); [|done]. by intros [= ->].
  - by intros [= <-].
Qed.

Lemma isValid_true_inv x y self self' :
  isValid x y self = Ok (true, self') →
  self' = self ∧ in_bounds self x y = true
  ∧ ∃ v, np_getitem (Self.world self) y x = Ok v ∧ array_equal_nan v = false.
Proof.
  rewrite isValid_run. destruct (in_bounds self x y); [|done].
  destruct (np_getitem _ _ _) as [v|]; [|done].
  destruct (array_equal_nan v) eqn:Hv; [done|].
  intros [= <-]. eauto.
Qed.

(** The two ways a call of [step] returns. *)
Lemma step_from_inv reward0 action s self pos reward flag self' :
  step_from reward0 action s self = Ok (pos, reward, flag, self') →
  ∃ a, transition_policy action s self = Ok (a, self) ∧
    let p := new_place a (Self.agent self) in
    (isValid p.2 p.1 self = Ok (true, self) ∧ pos = p
       ∧ np_getitem (Self.world self) p.1 p.2 = Ok reward
       ∧ flag = list_eq p (Self.terminal self)
       ∧ self' = Self.with_agent p self)
    ∨ (isValid p.2 p.1 self = Ok (false, self) ∧ pos = Self.agent self
       ∧ reward = (-0.5)%float
       ∧ flag = list_eq (Self.agent self) (Self.terminal self)
       ∧ self' = self).
Proof.
  rewrite step_from_run.
  destruct (transition_policy action s self) as [[a self1]|] eqn:Hpol; [|done].
  pose proof (transition_policy_pure _ _ _ _ _ Hpol) as ->.
  cbn zeta. intros Hstep. exists a. split; [done|].
  destruct (isValid _ _ self) as [[[] self2]|] eqn:Hval; [| |done].
  - pose proof Hval as (-> & _)%isValid_true_inv.
    destruct (np_getitem _ _ _) as [v|]; [|done].
    injection Hstep as <- <- <- <-. left. by split_and!.
  - assert (self2 = self) as ->.
    { revert Hval. rewrite isValid_run. destruct (in_bounds _ _ _).
      - destruct (np_getitem _ _ _); [|done]. by intros [= _ <-].
      - by intros [= <-]. }
    injection Hstep as <- <- <- <-. right. by split_and!.
Qed.

(** On a well-formed object [step] can only raise while drawing the
    executed action, before it assigns anything. *)
Lemma step_raises_in_policy action s self e :
  well_formed self → step action s self = Raise e →
  transition_policy action s self = Raise e.
Proof.
  intros Hwf. unfold step. rewrite step_from_run.
  destruct (transition_policy action s self) as [[a self1]|];
    [|by intros [= ->]].
  cbn zeta. set (p := new_place a (Self.agent self)).
  destruct (isValid_returns p.2 p.1 self Hwf) as [[] Hb]; rewrite Hb.
  - by apply isValid_true_inv in Hb as (_ & _ & v & -> & _).
  - intros [=].
Qed.

Lemma step_keeps_grid action s self r self' :
  step action s self = Ok (r, self') →
  self' = Self.with_agent (Self.agent self') self.
Proof.
  destruct r as [[pos reward] flag]. unfold step.
  intros (a & _ & [H|H])%step_from_inv.
  - by destruct H as (_ & _ & _ & _ & ->).
  - destruct H as (_ & _ & _ & _ & ->). by rewrite with_agent_same.
Qed.

Lemma reachable_keeps_grid init self :
  reachable init self → self = Self.with_agent (Self.agent self) init.
Proof.
  induction 1 as [|self action s r self' _ IH Hstep|self r self' _ IH Hreset].
  - by rewrite with_agent_same.
  - apply step_keeps_grid in Hstep. rewrite Hstep, IH. done.
  - rewrite reset_run in Hreset. injection Hreset as _ <-. by rewrite IH.
Qed.

Lemma reachable_initial_agent init self :
  reachable init self → Self.initial_agent self = Self.initial_agent init.
Proof. intros Hr. by rewrite (reachable_keeps_grid _ _ Hr). Qed.

Lemma reachable_well_formed init self :
  well_formed init → reachable init self → well_formed self.
Proof.
  intros Hwf Hr. rewrite (reachable_keeps_grid _ _ Hr).
  by apply with_agent_well_formed.
Qed.

(** ** The legal-position invariant *)

(** C1. If the start coordinate passes [isValid] on the constructed
    environment, then on every environment reached from it by [step] and
    [reset] calls, whatever the actions and the random samples, the agent's
    position passes [isValid]. *)
Theorem agent_position_always_valid
    x_dim y_dim epsilon start terminal neg_reward barrier init self :
  __init__ x_dim y_dim epsilon start terminal neg_reward barrier = Ok init →
  isValid start.1 start.2 init = Ok (true, init) →
  reachable init self →
  isValid (Self.agent self).2 (Self.agent self).1 self = Ok (true, self).
Proof.
  intros Hinit Hstart Hreach.
  apply init_inversion in Hinit
    as (_ & _ & _ & _ & _ & _ & Hagent & Hinitial & _).
  induction Hreach as [|self action s r self' Hr IH Hstep|self r self' Hr IH Hreset].
  - by rewrite Hagent.
  - destruct r as [[pos reward] flag]. unfold step in Hstep.
    apply step_from_inv in Hstep as (a & _ & [H|H]).
    + destruct H as (Hval & _ & _ & _ & ->). cbn [Self.agent Self.with_agent].
      by apply isValid_with_agent.
    + by destruct H as (_ & _ & _ & _ & ->).
  - rewrite reset_run in Hreset. injection Hreset as _ <-.
    rewrite (reachable_initial_agent _ _ Hr), Hinitial.
    rewrite (reachable_keeps_grid _ _ Hr). cbn [fst snd].
    by do 2 apply isValid_with_agent.
Qed.

Lemma agent_position_always_valid_witness :
  isValid 1 0 (Self.with_agent (0, 1) default_world)
    = Ok (true, Self.with_agent (0, 1) default_world).
Proof.
  apply (agent_position_always_valid 5 5 0.1%float (0, 0) (4, 0)
           [(0, 4, (-1)%float); (2, 1, (-1)%float); (4, 4, (-1)%float)]
           [(1, 2); (2, 0); (2, 3)] default_world).
  - reflexivity.
  - reflexivity.
  - apply (reachable_step _ default_world 3 keep_sample
             ((0, 1), 0%float, false)); [apply reachable_init | reflexivity].
Defined.

(** ** The validity check *)

(** C3. On a well-formed environment [isValid(x, y)] returns, leaves every
    attribute as it was, and its result is true exactly when
    [0 <= y < y_dim], [0 <= x < x_dim] and the cell [world[y, x]] is not the
    barrier value. *)
Theorem isValid_spec self x y :
  well_formed self →
  ∃ b, isValid x y self = Ok (b, self) ∧
    (b = true ↔
       0 <= y < Self.y_dim self ∧ 0 <= x < Self.x_dim self
       ∧ ∃ v, np_getitem (Self.world self) y x = Ok v
              ∧ array_equal_nan v = false).
Proof.
  intros Hwf. destruct (isValid_returns x y self Hwf) as [b Hb].
  exists b. split; [done|]. split.
  - intros ->. apply isValid_true_inv in Hb as (_ & Hin & Hv).
    apply in_bounds_range in Hin as [??]. split; [lia | split; [lia | exact Hv]].
  - intros (Hy & Hx & v & Hv & Hnan).
    revert Hb. rewrite isValid_run.
    assert (in_bounds self x y = true) as -> by (by apply in_bounds_range).
    rewrite Hv, Hnan. by intros [= <-].
Qed.

Lemma isValid_spec_witness :
  ∃ b, isValid 2 0 default_world = Ok (b, default_world) ∧
    (b = true ↔
       0 <= 0 < 5 ∧ 0 <= 2 < 5
       ∧ ∃ v, np_getitem (Self.world default_world) 0 2 = Ok v
              ∧ array_equal_nan v = false).
Proof. exact (isValid_spec default_world 2 0 default_world_well_formed). Defined.

(** ** Rejected moves *)

(** C2. Whenever the candidate position of the executed action is outside
    the grid or on a barrier cell, [step] returns the unchanged position
    with reward [-0.5], and leaves the environment as it was. *)
Theorem invalid_move_rejected self action s a :
  transition_policy action s self = Ok (a, self) →
  let p := new_place a (Self.agent self) in
  ¬ (0 <= p.1 < Self.y_dim self ∧ 0 <= p.2 < Self.x_dim self)
  ∨ (∃ v, np_getitem (Self.world self) p.1 p.2 = Ok v
          ∧ array_equal_nan v = true) →
  step action s self =
    Ok (Self.agent self, (-0.5)%float,
        list_eq (Self.agent self) (Self.terminal self), self).
Proof.
  intros Hpol p Hbad. unfold step. rewrite step_from_run, Hpol. cbn zeta.
  fold p. rewrite isValid_run.
  destruct (in_bounds self p.2 p.1) eqn:Hin; [|done].
  apply in_bounds_range in Hin.
  destruct Hbad as [Hout|(v & -> & ->)]; [tauto | done].
Qed.

Lemma invalid_move_rejected_witness :
  step 0 keep_sample default_world =
    Ok ((0, 0), (-0.5)%float, false, default_world).
Proof.
  apply (invalid_move_rejected default_world 0 keep_sample 0).
  - reflexivity.
  - left. cbn. lia.
Defined.

(** ** Layers of the constructed grid *)

(** C4. A successful construction leaves an array that holds, cell by cell,
    the layers in their order: zeros, then 10 at the terminal, then the
    negative rewards, then the barriers. So every listed barrier coordinate
    reads as the barrier value and is refused by [isValid], whatever the
    reward list and the terminal say about that cell. *)
Theorem construction_layers
    x_dim y_dim epsilon start terminal neg_reward barrier self :
  __init__ x_dim y_dim epsilon start terminal neg_reward barrier = Ok self →
  reads y_dim x_dim (Self.world self)
    (layered_grid x_dim y_dim terminal neg_reward barrier)
  ∧ ∀ x y, (x, y) ∈ barrier →
      np_getitem (Self.world self) y x = Ok nan
      ∧ isValid x y self = Ok (false, self).
Proof.
  intros (Hs & Hreads & Hrange & Hx & Hy & _)%init_inversion.
  split; [done|]. intros x y Hin.
  rewrite Forall_forall in Hrange. destruct (Hrange _ Hin) as [Hby Hbx].
  cbn [fst snd] in Hby, Hbx.
  assert (np_getitem (Self.world self) y x = Ok nan) as Hnan.
  { rewrite (np_getitem_wrap _ _ _ _ _ Hs Hby Hbx).
    rewrite Hreads by (by apply wrap_range).
    unfold layered_grid. by rewrite barrier_layers_hit. }
  split; [done|]. rewrite isValid_run, Hnan.
  by destruct (in_bounds self x y).
Qed.

Lemma construction_layers_witness :
  reads 5 5 (Self.world default_world)
    (layered_grid 5 5 (4, 0)
       [(0, 4, (-1)%float); (2, 1, (-1)%float); (4, 4, (-1)%float)]
       [(1, 2); (2, 0); (2, 3)])
  ∧ ∀ x y, (x, y) ∈ [(1, 2); (2, 0); (2, 3)] →
      np_getitem (Self.world default_world) y x = Ok nan
      ∧ isValid x y default_world = Ok (false, default_world).
Proof.
  apply (construction_layers 5 5 0.1%float (0, 0) (4, 0)
           [(0, 4, (-1)%float); (2, 1, (-1)%float); (4, 4, (-1)%float)]
           [(1, 2); (2, 0); (2, 3)] default_world).
  reflexivity.
Defined.

(** Barrier precedence at work: a coordinate that is the terminal, carries a
    reward and is listed as a barrier ends up a barrier. *)
Example barrier_over_reward_and_terminal :
  (self ← __init__ 3 1 0%float (0, 0) (2, 0) [(2, 0, (-1)%float)] [(2, 0)];
   Ok (Self.world self)) = Ok [[0; 0; nan]]%float.
Proof. reflexivity. Qed.

(** ** A zero-epsilon environment *)

Lemma zero_epsilon_keeps u :
  (u <? 1)%float = true → random_choice_p (1 - 0) 0 u = Ok true.
Proof. intros Hu. cbv. by rewrite Hu. Qed.

Lemma new_place_delta d p :
  new_place (code d) p = (p.1 + (delta d).1, p.2 + (delta d).2).
Proof. destruct p as [y x], d; cbn; f_equal; lia. Qed.

(** C5. With [epsilon = 0], whatever the samples, the executed action is the
    requested one and [step] moves by exactly that action's unit change: to
    the candidate [p] when [isValid] accepts it, and nowhere otherwise; the
    result is fixed by the environment and the action alone. *)
Theorem zero_epsilon_deterministic self d s :
  Self.epsilon self = 0%float →
  well_formed self →
  unit_interval (uniform_sample s) →
  let p := ((Self.agent self).1 + (delta d).1,
            (Self.agent self).2 + (delta d).2) in
  transition_policy (code d) s self = Ok (code d, self)
  ∧ ∃ b reward,
      isValid p.2 p.1 self = Ok (b, self)
      ∧ (if b then np_getitem (Self.world self) p.1 p.2 = Ok reward
         else reward = (-0.5)%float)
      ∧ let q := if b then p else Self.agent self in
        step (code d) s self =
          Ok (q, reward, list_eq q (Self.terminal self), Self.with_agent q self).
Proof.
  intros Heps Hwf [_ Hu] p.
  assert (transition_policy (code d) s self = Ok (code d, self)) as Hpol.
  { unfold transition_policy. msimpl. rewrite Heps.
    by rewrite (zero_epsilon_keeps _ Hu). }
  split; [done|].
  destruct (isValid_returns p.2 p.1 self Hwf) as [b Hb].
  unfold step. rewrite step_from_run, Hpol. cbn zeta.
  rewrite new_place_delta. fold p. rewrite Hb. destruct b.
  - pose proof Hb as (_ & _ & v & Hv & _)%isValid_true_inv.
    exists true, v. rewrite Hv. by split_and!.
  - exists false, (-0.5)%float. rewrite with_agent_same. by split_and!.
Qed.

Lemma quiet_world_well_formed : well_formed quiet_world.
Proof. split; [split; [done | repeat constructor] | cbn; lia]. Defined.

Lemma zero_epsilon_deterministic_witness :
  transition_policy 1 {| uniform_sample := 0.999%float; randint_sample := 3 |}
    quiet_world = Ok (1, quiet_world)
  ∧ ∃ b reward,
      isValid 0 1 quiet_world = Ok (b, quiet_world)
      ∧ (if b then np_getitem (Self.world quiet_world) 1 0 = Ok reward
         else reward = (-0.5)%float)
      ∧ let q := if b then (1, 0) else (0, 0) in
        step 1 {| uniform_sample := 0.999%float; randint_sample := 3 |}
          quiet_world =
          Ok (q, reward, list_eq q (0, 4), Self.with_agent q quiet_world).
Proof.
  apply (zero_epsilon_deterministic quiet_world down
           {| uniform_sample := 0.999%float; randint_sample := 3 |}).
  - reflexivity.
  - exact quiet_world_well_formed.
  - split; reflexivity.
Defined.

(** ** Reset *)

(** C6. [reset] returns the initial position and leaves the agent there;
    a second [reset] returns the same and changes nothing; after it
    [inTerminal] tells whether the initial position is the terminal one. *)
Theorem reset_postcondition self :
  ∃ self',
    reset self = Ok (Self.initial_agent self, self')
    ∧ Self.agent self' = Self.initial_agent self
    ∧ self' = Self.with_agent (Self.initial_agent self) self
    ∧ reset self' = Ok (Self.initial_agent self, self')
    ∧ inTerminal self' =
        Ok (bool_decide (Self.initial_agent self = Self.terminal self), self').
Proof.
  exists (Self.with_agent (Self.initial_agent self) self).
  split_and!; try done.
  by rewrite inTerminal_run, list_eq_decide.
Qed.

Example reset_after_steps :
  (r1 ← step 1 keep_sample default_world;
   r2 ← step 3 keep_sample r1.2;
   reset r2.2) = Ok ((0, 0), default_world).
Proof. reflexivity. Qed.

(** ** The terminal cell *)

Lemma reward_layers_value rows cols (neg_reward : list (Z * Z * float)) :
  ∀ (f : layer) i j,
    fold_left (λ f '(x, y, v), put rows cols x y v f) neg_reward f i j =
      match
        last (List.filter (λ '(x, y, _), names rows cols x y i j) neg_reward)
      with
      | Some (_, _, v) => v
      | None => f i j
      end.
Proof.
  induction neg_reward as [|[[x y] v] l IH]; intros f i j; [done|].
  cbn [fold_left List.filter]. rewrite IH. unfold put.
  destruct (names rows cols x y i j); [|done].
  rewrite last_cons. by destruct (last _) as [[[??]?]|].
Qed.

Lemma barrier_layers_value rows cols (barrier : list (Z * Z)) :
  ∀ (f : layer) i j,
    let v := fold_left (λ f '(x, y), put rows cols x y nan f) barrier f i j in
    array_equal_nan v = false → v = f i j.
Proof.
  induction barrier as [|[x y] l IH]; intros f i j; cbn [fold_left]; [done|].
  cbn zeta. intros Hv. rewrite IH by done. unfold put.
  destruct (names rows cols x y i j) eqn:Hn; [|done].
  rewrite barrier_layers_keep in Hv; [done|]. unfold put. by rewrite Hn.
Qed.

(** Moving onto the terminal cell of a constructed environment. *)
Lemma terminal_move
    x_dim y_dim epsilon start terminal neg_reward barrier init self action s a :
  __init__ x_dim y_dim epsilon start terminal neg_reward barrier = Ok init →
  reachable init self →
  transition_policy action s self = Ok (a, self) →
  let p := new_place a (Self.agent self) in
  isValid p.2 p.1 self = Ok (true, self) →
  p = Self.terminal self →
  step action s self =
      Ok (p, terminal_cell_reward x_dim y_dim terminal neg_reward, true,
          Self.with_agent p self)
  ∧ inTerminal (Self.with_agent p self) = Ok (true, Self.with_agent p self)
  ∧ (Forall (λ '(x, y, _), names y_dim x_dim x y terminal.2 terminal.1 = false)
       neg_reward →
     terminal_cell_reward x_dim y_dim terminal neg_reward = 10%float).
Proof.
  intros Hinit Hreach Hpol p Hvalid Hterm.
  apply init_inversion in Hinit
    as (_ & Hreads & _ & Hx & Hy & _ & _ & _ & Hterminal & _).
  pose proof (reachable_keeps_grid _ _ Hreach) as Hgrid.
  assert (Self.world self = Self.world init) as Hworld by (by rewrite Hgrid).
  assert (Self.terminal self = (terminal.2, terminal.1)) as Hterminal'
    by (by rewrite Hgrid).
  assert (in_bounds self p.2 p.1 = in_bounds init p.2 p.1) as Hbounds
    by (by rewrite Hgrid).
  pose proof Hvalid as (_ & Hin & v & Hv & Hnan)%isValid_true_inv.
  rewrite Hbounds in Hin. apply in_bounds_range in Hin as [Hi Hj].
  rewrite Hy in Hi. rewrite Hx in Hj.
  assert (v = terminal_cell_reward x_dim y_dim terminal neg_reward) as Hreward.
  { rewrite Hworld, (Hreads _ _ Hi Hj) in Hv. injection Hv as Hv.
    rewrite <- Hv in Hnan. unfold layered_grid in Hv, Hnan. cbn zeta in Hv, Hnan.
    apply barrier_layers_value in Hnan. rewrite Hnan in Hv.
    rewrite reward_layers_value in Hv.
    rewrite Hterm, Hterminal' in Hv. cbn [fst snd] in Hv.
    unfold terminal_cell_reward. destruct (last _) as [[[??]?]|]; [done|].
    rewrite Hterm, Hterminal' in Hi, Hj. cbn [fst snd] in Hi, Hj.
    rewrite <- Hv. unfold put, names.
    rewrite !wrap_canonical by lia. by rewrite !Z.eqb_refl. }
  split_and!.
  - unfold step. rewrite step_from_run, Hpol. cbn zeta. fold p.
    rewrite Hvalid, Hv, Hreward.
    by assert (list_eq p (Self.terminal self) = true) as ->
      by (by apply list_eq_true).
  - rewrite inTerminal_run. cbn [Self.agent Self.terminal Self.with_agent].
    by assert (list_eq p (Self.terminal self) = true) as ->
      by (by apply list_eq_true).
  - intros Hnone. unfold terminal_cell_reward.
    assert (List.filter
              (λ '(x, y, _), names y_dim x_dim x y terminal.2 terminal.1)
              neg_reward = []) as ->; [|done].
    clear -Hnone. induction Hnone as [|[[x y] v] l Hn _ IH]; [done|].
    cbn [List.filter]. by rewrite Hn.
Qed.

(** C7 (as the code has it). On every environment [inTerminal] returns
    whether the agent's position is the terminal coordinate, by exact
    equality of the two coordinates, and changes nothing. When the executed
    action's candidate is valid and is the terminal coordinate, [step]
    commits it and returns the value stored at the terminal cell with the
    flag true; that value is 10 unless a negative-reward entry names the
    terminal cell, and then it is the last such entry's value. *)
Theorem terminal_semantics :
  (∀ self,
     inTerminal self =
       Ok (bool_decide (Self.agent self = Self.terminal self), self))
  ∧ (∀ x_dim y_dim epsilon start terminal neg_reward barrier init
       self action s a,
       __init__ x_dim y_dim epsilon start terminal neg_reward barrier = Ok init →
       reachable init self →
       transition_policy action s self = Ok (a, self) →
       let p := new_place a (Self.agent self) in
       isValid p.2 p.1 self = Ok (true, self) →
       p = Self.terminal self →
       step action s self =
         Ok (p, terminal_cell_reward x_dim y_dim terminal neg_reward, true,
             Self.with_agent p self)
       ∧ inTerminal (Self.with_agent p self)
         = Ok (true, Self.with_agent p self)
       ∧ (Forall
            (λ '(x, y, _), names y_dim x_dim x y terminal.2 terminal.1 = false)
            neg_reward →
          terminal_cell_reward x_dim y_dim terminal neg_reward = 10%float)).
Proof.
  split.
  - intros self. by rewrite inTerminal_run, list_eq_decide.
  - intros x_dim y_dim epsilon start terminal neg_reward barrier init
      self action s a. apply terminal_move.
Qed.

Lemma terminal_semantics_witness :
  inTerminal default_world =
    Ok (bool_decide ((0, 0) = (0, 4)), default_world)
  ∧ step 3 keep_sample (Self.with_agent (0, 3) default_world) =
      Ok ((0, 4),
          terminal_cell_reward 5 5 (4, 0)
            [(0, 4, (-1)%float); (2, 1, (-1)%float); (4, 4, (-1)%float)],
          true, Self.with_agent (0, 4) default_world)
  ∧ inTerminal (Self.with_agent (0, 4) default_world) =
      Ok (true, Self.with_agent (0, 4) default_world)
  ∧ (Forall (λ '(x, y, _), names 5 5 x y 0 4 = false)
       [(0, 4, (-1)%float); (2, 1, (-1)%float); (4, 4, (-1)%float)] →
     terminal_cell_reward 5 5 (4, 0)
       [(0, 4, (-1)%float); (2, 1, (-1)%float); (4, 4, (-1)%float)] = 10%float).
Proof.
  split; [exact (proj1 terminal_semantics default_world)|].
  apply (proj2 terminal_semantics 5 5 0.1%float (0, 0) (4, 0)
           [(0, 4, (-1)%float); (2, 1, (-1)%float); (4, 4, (-1)%float)]
           [(1, 2); (2, 0); (2, 3)] default_world
           (Self.with_agent (0, 3) default_world) 3 keep_sample 3).
  - reflexivity.
  - apply (reachable_step _ (Self.with_agent (1, 3) default_world) 0 keep_sample
             ((0, 3), 0%float, false)); [|reflexivity].
    apply (reachable_step _ (Self.with_agent (1, 2) default_world) 3 keep_sample
             ((1, 3), 0%float, false)); [|reflexivity].
    apply (reachable_step _ (Self.with_agent (1, 1) default_world) 3 keep_sample
             ((1, 2), (-1)%float, false)); [|reflexivity].
    apply (reachable_step _ (Self.with_agent (1, 0) default_world) 3 keep_sample
             ((1, 1), 0%float, false)); [|reflexivity].
    apply (reachable_step _ default_world 1 keep_sample
             ((1, 0), 0%float, false)); [|reflexivity].
    apply reachable_init.
  - reflexivity.
  - reflexivity.
  - reflexivity.
Defined.

(** C7 as stated fails: moving right onto the terminal cell of that grid
    returns [-1] with the flag true, not 10. *)
Lemma terminal_reward_counterexample :
  __init__ 2 1 0%float (0, 0) (1, 0) [(1, 0, (-1)%float)] []
    = Ok overwritten_terminal_world
  ∧ step 3 keep_sample overwritten_terminal_world
    = Ok ((0, 1), (-1)%float, true,
          Self.with_agent (0, 1) overwritten_terminal_world)
  ∧ (0, 1) = Self.terminal overwritten_terminal_world
  ∧ (-1)%float ≠ 10%float.
Proof.
  split_and!; try reflexivity.
  intros H. apply (f_equal (λ v, PrimFloat.eqb v 10)) in H. discriminate H.
Qed.

(** ** The reward of a step *)

(** C8. The value the local [reward] starts with never reaches the result:
    [step] behaves the same for any starting value, and the reward it
    returns is the value stored at the committed cell or the penalty
    [-0.5] of a rejected move. *)
Theorem default_reward_dead reward0 action s self :
  step_from reward0 action s self = step action s self
  ∧ match step action s self with
    | Ok (pos, reward, flag, self') =>
        pos = Self.agent self'
        ∧ ((isValid pos.2 pos.1 self = Ok (true, self)
            ∧ self' = Self.with_agent pos self
            ∧ np_getitem (Self.world self') pos.1 pos.2 = Ok reward)
           ∨ (self' = self ∧ reward = (-0.5)%float))
    | Raise _ => True
    end.
Proof.
  split; [unfold step; by rewrite !step_from_run|].
  destruct (step action s self) as [[[[pos reward] flag] self']|] eqn:Hstep;
    [|done].
  unfold step in Hstep. apply step_from_inv in Hstep as (a & _ & [H|H]).
  - destruct H as (Hval & -> & Hv & _ & ->). split; [done|]. left. by split_and!.
  - destruct H as (_ & -> & -> & _ & ->). split; [done|]. by right.
Qed.

Example step_reward_default_world :
  step_from 42%float 1 keep_sample default_world
    = Ok ((1, 0), 0%float, false, Self.with_agent (1, 0) default_world)
  ∧ step_from 42%float 0 keep_sample default_world
    = Ok ((0, 0), (-0.5)%float, false, default_world).
Proof. split; reflexivity. Qed.

(** ** Actions outside the four symbols *)

(** C9 as stated fails: [step(7)] on the default environment raises
    nothing and returns normally. *)
Lemma unknown_action_counterexample :
  step 7 keep_sample default_world = Ok ((0, 0), 0%float, false, default_world).
Proof. reflexivity. Qed.

(** C9 (as the code has it). An action outside [0 .. 3] is not an error: on
    a well-formed environment, once the exploration draw itself succeeds,
    [step] returns a position, a reward and a flag. *)
Theorem unknown_action_completes self action s take_action :
  well_formed self →
  ¬ (0 <= action <= 3) →
  random_choice_p (1 - Self.epsilon self) (Self.epsilon self)
    (uniform_sample s) = Ok take_action →
  ∃ pos reward flag self',
    step action s self = Ok (pos, reward, flag, self').
Proof.
  intros Hwf _ Hdraw. pose proof Hwf as [_ Hact].
  assert (∃ a, transition_policy action s self = Ok (a, self)) as [a Hpol].
  { unfold transition_policy. msimpl. rewrite Hdraw.
    destruct take_action; cbn; [eauto|].
    unfold random_choice_n.
    destruct (Z.leb_spec (Z.of_nat (length (Self.action self))) 0); [lia|].
    eauto. }
  unfold step. rewrite step_from_run, Hpol. cbn zeta.
  set (p := new_place a (Self.agent self)).
  destruct (isValid_returns p.2 p.1 self Hwf) as [[] Hb]; rewrite Hb.
  - apply isValid_true_inv in Hb as (_ & _ & v & -> & _). eauto 6.
  - eauto 6.
Qed.

Lemma unknown_action_completes_witness :
  ∃ pos reward flag self',
    step (-1) keep_sample default_world = Ok (pos, reward, flag, self').
Proof.
  apply (unknown_action_completes default_world (-1) keep_sample true).
  - exact default_world_well_formed.
  - lia.
  - reflexivity.
Defined.

(** C10. For an action outside [0 .. 3] that the exploration trial keeps,
    the candidate is the current position: from a valid position [step]
    raises nothing, leaves the environment as it was, and returns the
    position, the value stored at its cell (not the penalty) and the
    current [inTerminal] flag. *)
Theorem unknown_action_is_noop self action s :
  ¬ (0 <= action <= 3) →
  random_choice_p (1 - Self.epsilon self) (Self.epsilon self)
    (uniform_sample s) = Ok true →
  isValid (Self.agent self).2 (Self.agent self).1 self = Ok (true, self) →
  new_place action (Self.agent self) = Self.agent self
  ∧ ∃ v flag,
      np_getitem (Self.world self) (Self.agent self).1 (Self.agent self).2 = Ok v
      ∧ array_equal_nan v = false
      ∧ inTerminal self = Ok (flag, self)
      ∧ step action s self = Ok (Self.agent self, v, flag, self).
Proof.
  intros Hact Hdraw Hvalid.
  assert (new_place action (Self.agent self) = Self.agent self) as Hplace.
  { unfold new_place. destruct (Self.agent self) as [y x].
    destruct (Z.eqb_spec action 0), (Z.eqb_spec action 1),
      (Z.eqb_spec action 2), (Z.eqb_spec action 3); (done || lia). }
  split; [done|].
  pose proof Hvalid as (_ & _ & v & Hv & Hnan)%isValid_true_inv.
  exists v, (list_eq (Self.agent self) (Self.terminal self)).
  split_and!; try done; [apply inTerminal_run|].
  assert (transition_policy action s self = Ok (action, self)) as Hpol.
  { unfold transition_policy. msimpl. by rewrite Hdraw. }
  unfold step. rewrite step_from_run, Hpol. cbn zeta.
  rewrite Hplace, Hvalid, Hv. by rewrite with_agent_same.
Qed.

Lemma unknown_action_is_noop_witness :
  new_place 9 (1, 2) = (1, 2)
  ∧ ∃ v flag,
      np_getitem (Self.world default_world) 1 2 = Ok v
      ∧ array_equal_nan v = false
      ∧ inTerminal (Self.with_agent (1, 2) default_world)
        = Ok (flag, Self.with_agent (1, 2) default_world)
      ∧ step 9 keep_sample (Self.with_agent (1, 2) default_world)
        = Ok ((1, 2), v, flag, Self.with_agent (1, 2) default_world).
Proof.
  apply (unknown_action_is_noop (Self.with_agent (1, 2) default_world) 9
           keep_sample).
  - lia.
  - reflexivity.
  - reflexivity.
Defined.

(** The same call on the negative-reward cell [(1, 2)]: the cell's [-1], not
    the penalty. *)
Example unknown_action_on_reward_cell :
  step 9 keep_sample (Self.with_agent (1, 2) default_world)
    = Ok ((1, 2), (-1)%float, false, Self.with_agent (1, 2) default_world).
Proof. reflexivity. Qed.

(** * Further properties of the class *)

(** ** What the constructor accepts *)

Lemma np_setitem_raises a i j v e : np_setitem a i j v = Raise e → e = IndexError.
Proof.
  unfold np_setitem, np_index.
  destruct ((0 <=? i) && _); rsimpl.
  - destruct (a !! _) as [row|]; [|by intros [= <-]].
    destruct ((0 <=? j) && _); [done|].
    destruct ((_ <=? j) && _); [done | by intros [= <-]].
  - destruct ((_ <=? i) && _); [|by intros [= <-]].
    destruct (a !! _) as [row|]; [|by intros [= <-]].
    destruct ((0 <=? j) && _); [done|].
    destruct ((_ <=? j) && _); [done | by intros [= <-]].
Qed.

Lemma for_each_setitem_raises {A} (body : A → ndarray → result ndarray) l :
  (∀ x w e, body x w = Raise e → e = IndexError) →
  ∀ a e, for_each l body a = Raise e → e = IndexError.
Proof.
  intros Hbody. induction l as [|x l IH]; intros a e; cbn [for_each]; [done|].
  rsimpl. destruct (body x a) as [a1|e1] eqn:Hx.
  - apply IH.
  - intros [= <-]. by eapply Hbody.
Qed.

(** The coordinates of a successful construction. *)
Lemma init_ranges x_dim y_dim epsilon start terminal neg_reward barrier self :
  __init__ x_dim y_dim epsilon start terminal neg_reward barrier = Ok self →
  coordinates_accepted x_dim y_dim terminal neg_reward barrier.
Proof.
  unfold __init__. rsimpl. cbn [fst snd].
  destruct (np_zeros y_dim x_dim) as [w0|] eqn:Hz; [|done].
  pose proof (shaped_zeros _ _ _ Hz) as Hs0.
  pose proof (reads_zeros _ _ _ Hz) as Hf0.
  assert (0 <= x_dim ∧ 0 <= y_dim) as [Hx Hy].
  { revert Hz. unfold np_zeros.
    destruct (Z.ltb_spec y_dim 0), (Z.ltb_spec x_dim 0);
      (done || (intros _; lia)). }
  destruct (np_setitem w0 _ _ _) as [w1|] eqn:Hset; [|done].
  pose proof (np_setitem_Ok_range _ _ _ _ _ _ _ Hs0 Hset) as Hterm.
  pose proof (np_setitem_shaped _ _ _ _ _ _ _ Hs0 Hset) as Hs1.
  pose proof (reads_setitem _ _ _ _ _ _ _ _ Hs0 Hf0 Hset) as Hf1.
  destruct (for_each neg_reward _ w1) as [w2|] eqn:Hneg; [|done].
  eapply (for_each_setitem (λ r, r.1.1) (λ r, r.1.2) (λ r, r.2)) in Hneg
    as (Hs2 & Hf2 & Hnegs); [| | | exact Hs1 | exact Hf1].
  2: { by intros [[??]?] ?. }
  2: { intros f [[x y] v]. by instantiate (1 := λ f '(x, y, v), put _ _ x y v f). }
  destruct (for_each barrier _ w2) as [w3|] eqn:Hbar; [|done].
  eapply (for_each_setitem (λ b, b.1) (λ b, b.2) (λ _, nan)) in Hbar
    as (_ & _ & Hbars); [| | | exact Hs2 | exact Hf2].
  2: { by intros [??] ?. }
  2: { intros f [x y]. by instantiate (1 := λ f '(x, y), put _ _ x y nan f). }
  intros _. destruct Hterm as [Hty Htx].
  unfold coordinates_accepted, axis_accepts.
  split; [done|]. split; [done|]. split; [done|]. split; [exact Hnegs | exact Hbars].
Qed.

(** X1. Once [np.zeros] has returned the array, the constructor returns an
    object exactly when the terminal, every negative-reward entry and every
    barrier lie within the axes of the array, negative indices counting
    from the end (the dimensions are then not negative). *)
Theorem init_succeeds_iff
    x_dim y_dim epsilon start terminal neg_reward barrier w0 :
  np_zeros y_dim x_dim = Ok w0 →
  (∃ self, __init__ x_dim y_dim epsilon start terminal neg_reward barrier = Ok self)
  ↔ coordinates_accepted x_dim y_dim terminal neg_reward barrier.
Proof.
  intros Hz. split.
  - intros [self Hinit]. by eapply init_ranges.
  - intros (_ & _ & [Hty Htx] & Hneg & Hbar). by eapply init_returns.
Qed.

Lemma init_succeeds_iff_witness :
  (∃ self, __init__ 2 1 0%float (0, 0) (-1, 0) [(1, 0, (-1)%float)] [(-2, -1)]
           = Ok self)
  ↔ coordinates_accepted 2 1 (-1, 0) [(1, 0, (-1)%float)] [(-2, -1)].
Proof.
  apply (init_succeeds_iff 2 1 0%float (0, 0) (-1, 0) [(1, 0, (-1)%float)]
           [(-2, -1)] [[0; 0]]%float).
  reflexivity.
Defined.

(** X2. No environment has an empty grid: a width or height of zero makes
    the assignment of the terminal cell fail, so a constructed object has
    at least one row and one column. *)
Theorem constructed_grid_not_empty
    x_dim y_dim epsilon start terminal neg_reward barrier self :
  __init__ x_dim y_dim epsilon start terminal neg_reward barrier = Ok self →
  0 < Self.x_dim self ∧ 0 < Self.y_dim self.
Proof.
  intros Hinit. pose proof (init_ranges _ _ _ _ _ _ _ _ Hinit)
    as (_ & _ & [Hty Htx] & _).
  apply init_inversion in Hinit as (_ & _ & _ & -> & -> & _).
  unfold axis_accepts in *. lia.
Qed.

Lemma constructed_grid_not_empty_witness :
  0 < Self.x_dim default_world ∧ 0 < Self.y_dim default_world.
Proof.
  apply (constructed_grid_not_empty 5 5 0.1%float (0, 0) (4, 0)
           [(0, 4, (-1)%float); (2, 1, (-1)%float); (4, 4, (-1)%float)]
           [(1, 2); (2, 0); (2, 3)] default_world).
  reflexivity.
Defined.

(** X3. When the constructor raises, the exception is the one of
    [np.zeros] if the array was not created, a [ValueError] when a dimension
    is negative, and [IndexError] once the array was created (a coordinate
    lies outside it). *)
Theorem init_error_kind x_dim y_dim epsilon start terminal neg_reward barrier e :
  __init__ x_dim y_dim epsilon start terminal neg_reward barrier = Raise e →
  match np_zeros y_dim x_dim with
  | Raise e0 => e = e0
  | Ok _ => e = IndexError
  end
  ∧ (y_dim < 0 ∨ x_dim < 0 → e = ValueError).
Proof.
  unfold __init__. rsimpl. cbn [fst snd]. intros Hinit. split.
  - destruct (np_zeros y_dim x_dim) as [w0|e0]; [|by injection Hinit].
    destruct (np_setitem _ _ _ _) as [w1|e1] eqn:Hset.
    2: { injection Hinit as <-. by eapply np_setitem_raises. }
    destruct (for_each neg_reward _ w1) as [w2|e2] eqn:Hneg.
    2: { injection Hinit as <-. eapply for_each_setitem_raises; [|exact Hneg].
         intros [[??]?] ??. apply np_setitem_raises. }
    destruct (for_each barrier _ w2) as [w3|e3] eqn:Hbar; [done|].
    injection Hinit as <-. eapply for_each_setitem_raises; [|exact Hbar].
    intros [??] ??. apply np_setitem_raises.
  - intros Hneg. revert Hinit. unfold np_zeros.
    assert ((y_dim <? 0) || (x_dim <? 0) = true) as ->.
    { apply orb_true_iff. rewrite !Z.ltb_lt. lia. }
    by intros [= <-].
Qed.

Lemma init_error_kind_witness :
  match np_zeros 5 5 with
  | Raise e0 => IndexError = e0
  | Ok _ => IndexError = IndexError
  end
  ∧ (5 < 0 ∨ 5 < 0 → IndexError = ValueError).
Proof.
  apply (init_error_kind 5 5 0.1%float (0, 0) (5, 0) [] []). reflexivity.
Defined.

(** ** What a step returns *)

Lemma new_place_near action p :
  Z.abs ((new_place action p).1 - p.1) + Z.abs ((new_place action p).2 - p.2) <= 1.
Proof.
  destruct p as [y x]. unfold new_place.
  destruct (action =? 0), (action =? 1), (action =? 2), (action =? 3);
    cbn [fst snd]; lia.
Qed.

(** X4. Whatever the action and the samples, a step moves the agent by at
    most one cell, along one axis; the position it returns is the agent's
    new position. *)
Theorem step_moves_one_cell action s self pos reward flag self' :
  step action s self = Ok (pos, reward, flag, self') →
  pos = Self.agent self'
  ∧ Z.abs (pos.1 - (Self.agent self).1)
    + Z.abs (pos.2 - (Self.agent self).2) <= 1.
Proof.
  unfold step. intros (a & _ & [H|H])%step_from_inv.
  - destruct H as (_ & -> & _ & _ & ->). split; [done|]. apply new_place_near.
  - destruct H as (_ & -> & _ & _ & ->). split; [done|]. lia.
Qed.

Lemma step_moves_one_cell_witness :
  (1, 0) = Self.agent (Self.with_agent (1, 0) default_world)
  ∧ Z.abs ((1, 0).1 - (Self.agent default_world).1)
    + Z.abs ((1, 0).2 - (Self.agent default_world).2) <= 1.
Proof.
  apply (step_moves_one_cell 1 keep_sample default_world (1, 0) 0%float false).
  reflexivity.
Defined.

(** X5. The reward a step returns is never NaN: a committed move reads a
    cell [isValid] found not to be a barrier, a rejected one returns the
    penalty. *)
Theorem step_reward_not_nan action s self pos reward flag self' :
  step action s self = Ok (pos, reward, flag, self') →
  array_equal_nan reward = false.
Proof.
  unfold step. intros (a & _ & [H|H])%step_from_inv.
  - destruct H as (Hval & _ & Hv & _).
    apply isValid_true_inv in Hval as (_ & _ & v & Hv' & Hnan). congruence.
  - by destruct H as (_ & _ & -> & _).
Qed.

Lemma step_reward_not_nan_witness : array_equal_nan (-1)%float = false.
Proof.
  apply (step_reward_not_nan 3 keep_sample (Self.with_agent (1, 1) default_world)
           (1, 2) (-1)%float false (Self.with_agent (1, 2) default_world)).
  reflexivity.
Defined.

(** X6. In an environment built by the constructor, the reward of a step is
    the penalty [-0.5], the 0 of a plain cell, the terminal's 10, or the
    value of one of the negative-reward entries. *)
Theorem step_reward_values
    x_dim y_dim epsilon start terminal neg_reward barrier init
    self action s pos reward flag self' :
  __init__ x_dim y_dim epsilon start terminal neg_reward barrier = Ok init →
  reachable init self →
  step action s self = Ok (pos, reward, flag, self') →
  reward = (-0.5)%float ∨ reward = 0%float ∨ reward = 10%float
  ∨ ∃ x y, (x, y, reward) ∈ neg_reward.
Proof.
  intros Hinit Hreach. unfold step. intros (a & _ & [H|H])%step_from_inv.
  2: { destruct H as (_ & _ & -> & _). by left. }
  destruct H as (Hval & _ & Hv & _). right.
  apply init_inversion in Hinit as (_ & Hreads & _ & Hx & Hy & _).
  pose proof (reachable_keeps_grid _ _ Hreach) as Hgrid.
  set (p := new_place a (Self.agent self)) in *.
  assert (Self.world self = Self.world init) as Hworld by (by rewrite Hgrid).
  assert (in_bounds self p.2 p.1 = in_bounds init p.2 p.1) as Hbounds
    by (by rewrite Hgrid).
  apply isValid_true_inv in Hval as (_ & Hin & v & Hv' & Hnan).
  assert (v = reward) as -> by congruence. clear Hv'.
  rewrite Hbounds in Hin. apply in_bounds_range in Hin as [Hi Hj].
  rewrite Hy in Hi. rewrite Hx in Hj.
  rewrite Hworld, (Hreads _ _ Hi Hj) in Hv. injection Hv as Hv.
  rewrite <- Hv in Hnan. unfold layered_grid in Hv, Hnan. cbn zeta in Hv, Hnan.
  apply barrier_layers_value in Hnan. rewrite Hnan in Hv.
  rewrite reward_layers_value in Hv.
  destruct (last _) as [[[x y] v]|] eqn:Hlast.
  - right. right. exists x, y. subst v.
    apply last_Some_elem_of, list_elem_of_In, filter_In in Hlast as [Hin _].
    by apply list_elem_of_In.
  - unfold put, base_layer in Hv. destruct (names _ _ _ _ _ _); auto.
Qed.

Lemma step_reward_values_witness :
  (-1)%float = (-0.5)%float ∨ (-1)%float = 0%float ∨ (-1)%float = 10%float
  ∨ ∃ x y, (x, y, (-1)%float)
            ∈ [(0, 4, (-1)%float); (2, 1, (-1)%float); (4, 4, (-1)%float)].
Proof.
  apply (step_reward_values 5 5 0.1%float (0, 0) (4, 0)
           [(0, 4, (-1)%float); (2, 1, (-1)%float); (4, 4, (-1)%float)]
           [(1, 2); (2, 0); (2, 3)] default_world
           (Self.with_agent (1, 1) default_world) 3 keep_sample
           (1, 2) (-1)%float false (Self.with_agent (1, 2) default_world)).
  - reflexivity.
  - apply (reachable_step _ (Self.with_agent (1, 0) default_world) 3 keep_sample
             ((1, 1), 0%float, false)); [|reflexivity].
    apply (reachable_step _ default_world 1 keep_sample
             ((1, 0), 0%float, false)); [|reflexivity].
    apply reachable_init.
  - reflexivity.
Defined.

(** X7. The position and the flag a step returns are what [getState] and
    [inTerminal] report on the environment it leaves. *)
Theorem step_agrees_with_getters action s self pos reward flag self' :
  step action s self = Ok (pos, reward, flag, self') →
  getState self' = Ok (pos, self') ∧ inTerminal self' = Ok (flag, self').
Proof.
  unfold step. intros (a & _ & [H|H])%step_from_inv.
  - destruct H as (_ & -> & _ & -> & ->). by rewrite inTerminal_run.
  - destruct H as (_ & -> & _ & -> & ->). by rewrite inTerminal_run.
Qed.

Lemma step_agrees_with_getters_witness :
  getState (Self.with_agent (1, 0) default_world)
    = Ok ((1, 0), Self.with_agent (1, 0) default_world)
  ∧ inTerminal (Self.with_agent (1, 0) default_world)
    = Ok (false, Self.with_agent (1, 0) default_world).
Proof.
  apply (step_agrees_with_getters 1 keep_sample default_world (1, 0) 0%float).
  reflexivity.
Defined.

(** ** What step and reset keep *)

(** X8. Whatever happened since construction, [reset] gives back exactly
    the constructed environment, and returns its start position. *)
Theorem reset_restores_construction
    x_dim y_dim epsilon start terminal neg_reward barrier init self :
  __init__ x_dim y_dim epsilon start terminal neg_reward barrier = Ok init →
  reachable init self →
  reset self = Ok ((start.2, start.1), init).
Proof.
  intros Hinit Hreach.
  apply init_inversion in Hinit
    as (_ & _ & _ & _ & _ & _ & Hagent & Hinitial & _).
  rewrite reset_run, (reachable_initial_agent _ _ Hreach), Hinitial.
  rewrite (reachable_keeps_grid _ _ Hreach). f_equal. f_equal.
  rewrite <- Hagent. by destruct init.
Qed.

Lemma reset_restores_construction_witness :
  reset (Self.with_agent (1, 0) default_world) = Ok ((0, 0), default_world).
Proof.
  apply (reset_restores_construction 5 5 0.1%float (0, 0) (4, 0)
           [(0, 4, (-1)%float); (2, 1, (-1)%float); (4, 4, (-1)%float)]
           [(1, 2); (2, 0); (2, 3)] default_world).
  - reflexivity.
  - apply (reachable_step _ default_world 1 keep_sample
             ((1, 0), 0%float, false)); [apply reachable_init | reflexivity].
Defined.

(** X9. [step] and [reset] assign nothing but the agent's position: on
    every reached environment the getters report the constructor's
    dimensions, terminal and action list, and the array, [epsilon] and the
    start position are those of the constructed object. *)
Theorem getters_constant
    x_dim y_dim epsilon start terminal neg_reward barrier init self :
  __init__ x_dim y_dim epsilon start terminal neg_reward barrier = Ok init →
  reachable init self →
  getXdim self = Ok (x_dim, self)
  ∧ getYdim self = Ok (y_dim, self)
  ∧ getTerminal self = Ok ((terminal.2, terminal.1), self)
  ∧ getActions self = Ok (["up"; "down"; "left"; "right"]%string, self)
  ∧ Self.world self = Self.world init
  ∧ Self.epsilon self = epsilon
  ∧ Self.initial_agent self = (start.2, start.1).
Proof.
  intros Hinit Hreach.
  apply init_inversion in Hinit
    as (_ & _ & _ & Hx & Hy & Heps & _ & Hinitial & Hterm & Hact).
  pose proof (reachable_keeps_grid _ _ Hreach) as Hgrid.
  assert (Self.x_dim self = x_dim) as Hx' by (by rewrite Hgrid).
  assert (Self.y_dim self = y_dim) as Hy' by (by rewrite Hgrid).
  assert (Self.terminal self = (terminal.2, terminal.1)) as Hterm'
    by (by rewrite Hgrid).
  assert (Self.action self = ["up"; "down"; "left"; "right"]%string) as Hact'
    by (by rewrite Hgrid).
  unfold getXdim, getYdim, getTerminal, getActions, attr.
  rewrite Hx', Hy', Hterm', Hact'. split_and!; try done; by rewrite Hgrid.
Qed.

Lemma getters_constant_witness :
  getXdim (Self.with_agent (1, 0) default_world)
    = Ok (5, Self.with_agent (1, 0) default_world)
  ∧ getYdim (Self.with_agent (1, 0) default_world)
    = Ok (5, Self.with_agent (1, 0) default_world)
  ∧ getTerminal (Self.with_agent (1, 0) default_world)
    = Ok ((0, 4), Self.with_agent (1, 0) default_world)
  ∧ getActions (Self.with_agent (1, 0) default_world)
    = Ok (["up"; "down"; "left"; "right"]%string,
          Self.with_agent (1, 0) default_world)
  ∧ Self.world (Self.with_agent (1, 0) default_world) = Self.world default_world
  ∧ Self.epsilon (Self.with_agent (1, 0) default_world) = 0.1%float
  ∧ Self.initial_agent (Self.with_agent (1, 0) default_world) = (0, 0).
Proof.
  apply (getters_constant 5 5 0.1%float (0, 0) (4, 0)
           [(0, 4, (-1)%float); (2, 1, (-1)%float); (4, 4, (-1)%float)]
           [(1, 2); (2, 0); (2, 3)] default_world).
  - reflexivity.
  - apply (reachable_step _ default_world 1 keep_sample
             ((1, 0), 0%float, false)); [apply reachable_init | reflexivity].
Defined.

(** ** The exploration trial *)

(** X10. When the trial fails, the requested action plays no part: the
    executed action is the integer sample, and [step] returns the same for
    any two requests. *)
Theorem failed_trial_ignores_request self action s :
  well_formed self →
  random_choice_p (1 - Self.epsilon self) (Self.epsilon self)
    (uniform_sample s) = Ok false →
  transition_policy action s self = Ok (randint_sample s, self)
  ∧ ∀ action', step action s self = step action' s self.
Proof.
  intros [_ Hact] Hdraw.
  assert (∀ a, transition_policy a s self = Ok (randint_sample s, self)) as Hpol.
  { intros a. unfold transition_policy. msimpl. rewrite Hdraw. cbn.
    unfold random_choice_n.
    by destruct (Z.leb_spec (Z.of_nat (length (Self.action self))) 0); [lia|]. }
  split; [done|]. intros action'. unfold step.
  by rewrite !step_from_run, !Hpol.
Qed.

(** A sample that fails the trial when [epsilon] is 0.1. *)
Lemma failed_trial_ignores_request_witness :
  transition_policy 0 {| uniform_sample := 0.95%float; randint_sample := 1 |}
    default_world = Ok (1, default_world)
  ∧ ∀ action',
      step 0 {| uniform_sample := 0.95%float; randint_sample := 1 |} default_world
      = step action' {| uniform_sample := 0.95%float; randint_sample := 1 |}
          default_world.
Proof.
  apply (failed_trial_ignores_request default_world 0
           {| uniform_sample := 0.95%float; randint_sample := 1 |}).
  - exact default_world_well_formed.
  - reflexivity.
Defined.

(** X11. The constructor stores any [epsilon], but when [epsilon] or
    [1 - epsilon] is negative every call of [step] raises [ValueError]
    (numpy refuses the probabilities), whatever the action and the state. *)
Theorem invalid_epsilon_raises self action s :
  (Self.epsilon self <? 0)%float = true
  ∨ (1 - Self.epsilon self <? 0)%float = true →
  step action s self = Raise ValueError.
Proof.
  intros Heps. unfold step. rewrite step_from_run.
  assert (transition_policy action s self = Raise ValueError) as ->; [|done].
  unfold transition_policy, random_choice_p. msimpl.
  destruct (array_equal_nan _); [done|].
  by destruct Heps as [-> | ->]; rewrite ?orb_true_r.
Qed.

Lemma invalid_epsilon_raises_witness :
  step 1 keep_sample bad_epsilon_world = Raise ValueError.
Proof. apply invalid_epsilon_raises. right. reflexivity. Defined.

Lemma leb_zero_not_ltb u : (0 <=? u)%float = true → (u <? 0)%float = false.
Proof.
  rewrite FloatAxioms.leb_spec, FloatAxioms.ltb_spec.
  change (FloatOps.Prim2SF 0) with (SpecFloat.S754_zero false).
  by destruct (FloatOps.Prim2SF u) as [[]|[]| |[] ? ?].
Qed.

Lemma unit_epsilon_fails u :
  unit_interval u → random_choice_p (1 - 1) 1 u = Ok false.
Proof.
  intros [Hlo Hhi]. apply leb_zero_not_ltb in Hlo. cbv - [PrimFloat.ltb].
  change (0x0p+0)%float with 0%float. by rewrite Hlo, Hhi.
Qed.

(** X12. With [epsilon = 1] the trial fails for every sample of the unit
    interval: the executed action is always the integer sample, never the
    request as such. *)
Theorem unit_epsilon_always_random self action s :
  Self.epsilon self = 1%float →
  well_formed self →
  unit_interval (uniform_sample s) →
  transition_policy action s self = Ok (randint_sample s, self).
Proof.
  intros Heps [_ Hact] Hu. unfold transition_policy. msimpl.
  rewrite Heps, (unit_epsilon_fails _ Hu). cbn. unfold random_choice_n.
  by destruct (Z.leb_spec (Z.of_nat (length (Self.action self))) 0); [lia|].
Qed.

Lemma unit_epsilon_always_random_witness :
  transition_policy 0 keep_sample loud_world = Ok (2, loud_world).
Proof.
  apply (unit_epsilon_always_random loud_world 0 keep_sample).
  - reflexivity.
  - split; [split; [done | repeat constructor] | cbn; lia].
  - split; reflexivity.
Defined.

(** ** Cells the agent never stands on *)

(** The position of an environment reached from a valid start is in bounds
    and its cell is not NaN. *)
Lemma reached_position x_dim y_dim epsilon start terminal neg_reward barrier
    init self :
  __init__ x_dim y_dim epsilon start terminal neg_reward barrier = Ok init →
  isValid start.1 start.2 init = Ok (true, init) →
  reachable init self →
  (0 <= (Self.agent self).1 < y_dim ∧ 0 <= (Self.agent self).2 < x_dim)
  ∧ ∃ v, np_getitem (Self.world init) (Self.agent self).1 (Self.agent self).2
           = Ok v ∧ array_equal_nan v = false.
Proof.
  intros Hinit Hstart Hreach.
  apply init_inversion in Hinit
    as (_ & _ & _ & Hx & Hy & _ & Hagent & Hinitial & _).
  assert (∀ p, isValid p.2 p.1 init = Ok (true, init) →
            (0 <= p.1 < y_dim ∧ 0 <= p.2 < x_dim)
            ∧ ∃ v, np_getitem (Self.world init) p.1 p.2 = Ok v
                   ∧ array_equal_nan v = false) as Hgoal.
  { intros p (_ & Hin & Hv)%isValid_true_inv.
    apply in_bounds_range in Hin. rewrite Hx, Hy in Hin. done. }
  assert (∀ p, isValid p.2 p.1 self = Ok (true, self) →
            isValid p.2 p.1 init = Ok (true, init)) as Hback.
  { intros p Hp. pose proof (reachable_keeps_grid _ _ Hreach) as Hgrid.
    apply (isValid_with_agent _ _ (Self.agent init)) in Hp.
    rewrite Hgrid in Hp. revert Hp.
    replace (Self.with_agent (Self.agent init)
               (Self.with_agent (Self.agent self) init)) with init
      by (by destruct init). done. }
  apply Hgoal, Hback. clear Hgoal Hback.
  induction Hreach as [|self action s r self' Hr IH Hstep|self r self' Hr IH Hreset].
  - by rewrite Hagent.
  - destruct r as [[pos reward] flag]. unfold step in Hstep.
    apply step_from_inv in Hstep as (a & _ & [H|H]).
    + destruct H as (Hval & _ & _ & _ & ->). by apply isValid_with_agent.
    + by destruct H as (_ & _ & _ & _ & ->).
  - rewrite reset_run in Hreset. injection Hreset as _ <-.
    rewrite (reachable_initial_agent _ _ Hr), Hinitial.
    rewrite (reachable_keeps_grid _ _ Hr).
    by do 2 apply isValid_with_agent.
Qed.

(** X13. From a valid start the agent never stands on a listed barrier,
    in whichever form (negative indices included) the barrier was given. *)
Theorem barrier_never_occupied
    x_dim y_dim epsilon start terminal neg_reward barrier init self x y :
  __init__ x_dim y_dim epsilon start terminal neg_reward barrier = Ok init →
  isValid start.1 start.2 init = Ok (true, init) →
  reachable init self →
  (x, y) ∈ barrier →
  Self.agent self ≠ (wrap y_dim y, wrap x_dim x).
Proof.
  intros Hinit Hstart Hreach Hin Heq.
  destruct (reached_position _ _ _ _ _ _ _ _ _ Hinit Hstart Hreach)
    as (_ & v & Hv & Hnan).
  apply init_inversion in Hinit as (Hs & Hreads & Hrange & _).
  rewrite Forall_forall in Hrange. destruct (Hrange _ Hin) as [Hby Hbx].
  cbn [fst snd] in Hby, Hbx.
  rewrite Heq in Hv. cbn [fst snd] in Hv.
  rewrite Hreads in Hv by (by apply wrap_range). injection Hv as <-.
  unfold layered_grid in Hnan. by rewrite barrier_layers_hit in Hnan.
Qed.

Lemma barrier_never_occupied_witness :
  Self.agent (Self.with_agent (1, 0) default_world) ≠ (wrap 5 2, wrap 5 1).
Proof.
  apply (barrier_never_occupied 5 5 0.1%float (0, 0) (4, 0)
           [(0, 4, (-1)%float); (2, 1, (-1)%float); (4, 4, (-1)%float)]
           [(1, 2); (2, 0); (2, 3)] default_world).
  - reflexivity.
  - reflexivity.
  - apply (reachable_step _ default_world 1 keep_sample
             ((1, 0), 0%float, false)); [apply reachable_init | reflexivity].
  - apply list_elem_of_In. left. reflexivity.
Defined.

(** X14. A terminal given with a negative index is accepted (its cell holds
    the 10) but never reached: positions are never negative, so from a
    valid start [inTerminal] is false on every reached environment. *)
Theorem negative_terminal_never_reached
    x_dim y_dim epsilon start terminal neg_reward barrier init self :
  __init__ x_dim y_dim epsilon start terminal neg_reward barrier = Ok init →
  isValid start.1 start.2 init = Ok (true, init) →
  reachable init self →
  terminal.1 < 0 ∨ terminal.2 < 0 →
  inTerminal self = Ok (false, self).
Proof.
  intros Hinit Hstart Hreach Hneg.
  destruct (reached_position _ _ _ _ _ _ _ _ _ Hinit Hstart Hreach)
    as ([Hy Hx] & _).
  apply init_inversion in Hinit as (_ & _ & _ & _ & _ & _ & _ & _ & Hterm & _).
  rewrite inTerminal_run. do 2 f_equal.
  assert (Self.terminal self = (terminal.2, terminal.1)) as ->
    by (by rewrite (reachable_keeps_grid _ _ Hreach)).
  destruct (list_eq _ _) eqn:Heq; [|done].
  apply list_eq_true in Heq. rewrite Heq in Hy, Hx. cbn [fst snd] in Hy, Hx. lia.
Qed.

Lemma negative_terminal_never_reached_witness :
  inTerminal (Self.with_agent (0, 1) negative_terminal_world)
  = Ok (false, Self.with_agent (0, 1) negative_terminal_world).
Proof.
  apply (negative_terminal_never_reached 2 1 0%float (0, 0) (-1, 0) [] []
           negative_terminal_world).
  - reflexivity.
  - reflexivity.
  - apply (reachable_step _ negative_terminal_world 3 keep_sample
             ((0, 1), 10%float, false)); [apply reachable_init | reflexivity].
  - left. cbn. lia.
Defined.

(** X15. A terminal that is also listed as a barrier ends up a barrier and
    is never reached: from a valid start [inTerminal] is false on every
    reached environment. *)
Theorem barrier_terminal_never_reached
    x_dim y_dim epsilon start terminal neg_reward barrier init self :
  __init__ x_dim y_dim epsilon start terminal neg_reward barrier = Ok init →
  isValid start.1 start.2 init = Ok (true, init) →
  reachable init self →
  terminal ∈ barrier →
  inTerminal self = Ok (false, self).
Proof.
  intros Hinit Hstart Hreach Hin.
  destruct (reached_position _ _ _ _ _ _ _ _ _ Hinit Hstart Hreach)
    as ([Hy Hx] & v & Hv & Hnan).
  apply init_inversion in Hinit as (_ & Hreads & _ & _ & _ & _ & _ & _ & Hterm & _).
  rewrite inTerminal_run. do 2 f_equal.
  assert (Self.terminal self = (terminal.2, terminal.1)) as ->
    by (by rewrite (reachable_keeps_grid _ _ Hreach)).
  destruct (list_eq _ _) eqn:Heq; [|done].
  apply list_eq_true in Heq. rewrite Heq in Hy, Hx, Hv.
  cbn [fst snd] in Hy, Hx, Hv. destruct terminal as [tx ty]. cbn [fst snd] in *.
  rewrite Hreads in Hv by done. injection Hv as <-.
  unfold layered_grid in Hnan.
  pose proof (barrier_layers_hit y_dim x_dim barrier
    (fold_left (λ f '(x, y, v), put y_dim x_dim x y v f) neg_reward
       (put y_dim x_dim tx ty 10%float base_layer)) tx ty Hin) as Hhit.
  rewrite !wrap_canonical in Hhit by lia. cbn [fst snd] in Hnan.
  by rewrite Hhit in Hnan.
Qed.

Lemma barrier_terminal_never_reached_witness :
  inTerminal barrier_terminal_world = Ok (false, barrier_terminal_world).
Proof.
  apply (barrier_terminal_never_reached 2 1 0%float (0, 0) (1, 0) [] [(1, 0)]
           barrier_terminal_world).
  - reflexivity.
  - reflexivity.
  - apply reachable_init.
  - apply list_elem_of_In. left. reflexivity.
Defined.

(** ** The printed grid *)

Lemma string_length_app s1 s2 :
  String.length (s1 +:+ s2) = (String.length s1 + String.length s2)%nat.
Proof.
  induction s1 as [|c s1 IH]; [done|].
  change (S (String.length (s1 +:+ s2))
          = S (String.length s1 + String.length s2)). by rewrite IH.
Qed.

Lemma substring_length s : ∀ n m,
  String.length (String.substring n m s)
  = Nat.min m (String.length s - n).
Proof.
  induction s as [|c s IH]; intros [|n] [|m]; cbn; try done.
  by rewrite IH, Nat.sub_0_r.
Qed.

Lemma last_chars_length n s :
  (n ≤ String.length s)%nat → String.length (last_chars n s) = n.
Proof. intros Hn. unfold last_chars. rewrite substring_length. lia. Qed.

(** A padded number cut to its last characters has exactly that width,
    however long the number is. *)
Lemma padded_length (pad tail : string) (k : Z) n :
  (n ≤ String.length pad)%nat →
  String.length (last_chars n (pad +:+ pretty k +:+ tail)) = n.
Proof.
  intros Hn. apply last_chars_length. rewrite string_length_app. lia.
Qed.

Lemma padded_length_5 (k : Z) :
  String.length (last_chars 5 ("     " +:+ pretty k)) = 5%nat.
Proof. apply last_chars_length. rewrite string_length_app. cbn. lia. Qed.

Lemma visualize_cell_widths self y x l1 l2 l3 l1' l2' l3' :
  visualize_cell self y x (l1, l2, l3) = inr (l1', l2', l3') →
  String.length l1' = (String.length l1 + 6)%nat
  ∧ String.length l2' = (String.length l2 + 6)%nat
  ∧ String.length l3' = (String.length l3 + 6)%nat.
Proof.
  unfold visualize_cell.
  destruct (np_getitem _ _ _) as [val|]; [|done].
  destruct (list_eq _ _), (array_equal_nan val), (val =? 0)%float;
    try destruct (int_of_float val); try done;
    intros [= <- <- <-]; rewrite !string_length_app, ?padded_length_5;
    cbn; lia.
Qed.

Lemma visualize_cells_widths self y xs : ∀ l1 l2 l3 l1' l2' l3',
  for_in xs (visualize_cell self y) (l1, l2, l3) = inr (l1', l2', l3') →
  String.length l1' = (String.length l1 + 6 * length xs)%nat
  ∧ String.length l2' = (String.length l2 + 6 * length xs)%nat
  ∧ String.length l3' = (String.length l3 + 6 * length xs)%nat.
Proof.
  induction xs as [|x xs IH]; intros l1 l2 l3 l1' l2' l3'; cbn [for_in].
  - intros [= <- <- <-]. cbn. lia.
  - destruct (visualize_cell self y x (l1, l2, l3)) as [|[[m1 m2] m3]] eqn:Hcell;
      [done|].
    apply visualize_cell_widths in Hcell as (? & ? & ?).
    intros (? & ? & ?)%IH. cbn [length]. lia.
Qed.

Lemma visualize_row_widths self y l1 l2 l3 :
  visualize_row self y = inr (l1, l2, l3) →
  let width := (6 * Z.to_nat (Self.x_dim self) + 6)%nat in
  String.length l1 = width ∧ String.length l2 = width
  ∧ String.length l3 = width.
Proof.
  unfold visualize_row. intros (H1 & H2 & H3)%visualize_cells_widths.
  rewrite length_seqZ in H1, H2, H3.
  rewrite (padded_length "      " " ||" y 6) in H2 by (cbn; lia).
  cbn in H1, H3. cbn zeta. lia.
Qed.

Lemma visualize_rows_layout self ys : ∀ events,
  visualize_rows self ys = (events, None) →
  length events = (3 * length ys)%nat
  ∧ Forall (printed_line (6 * Z.to_nat (Self.x_dim self) + 6)) events.
Proof.
  induction ys as [|y ys IH]; intros events; cbn [visualize_rows].
  - by intros [= <-].
  - destruct (visualize_row self y) as [|[[l1 l2] l3]] eqn:Hrow; [done|].
    apply visualize_row_widths in Hrow as (H1 & H2 & H3).
    destruct (visualize_rows self ys) as [evs raised].
    intros [= <- ->]. destruct (IH evs eq_refl) as [Hlen Hall]. split.
    + cbn [length]. lia.
    + repeat (constructor; [by eexists|]). done.
Qed.

Lemma visualize_bottom_widths xs : ∀ t l m t' l' m',
  fold_left visualize_bottom xs (t, l, m) = (t', l', m') →
  String.length t' = (String.length t + 6 * length xs)%nat
  ∧ String.length l' = (String.length l + 6 * length xs)%nat
  ∧ String.length m' = (String.length m + 6 * length xs)%nat.
Proof.
  induction xs as [|x xs IH]; intros t l m t' l' m'; cbn [fold_left].
  - intros [= <- <- <-]. cbn. lia.
  - unfold visualize_bottom at 2. intros (H1 & H2 & H3)%IH.
    rewrite !string_length_app in H1, H2, H3.
    rewrite (padded_length "      " " |" x 6) in H3 by (cbn; lia).
    cbn [length]. cbn in H1, H2. lia.
Qed.

(** X16. When [visualize] ends without an exception it has cleared the
    console and printed an empty line, three lines for each row of the
    grid, four lines of column labels and an empty line; every line between
    the two empty ones has the same width, six characters for the margin
    and six for each column, however large the rewards and the indices. *)
Theorem visualize_layout os_name self events :
  visualize os_name self = (events, None) →
  ∃ body,
    events = clearConsole os_name ++ Print ""%string :: body ++ [Print ""%string]
    ∧ length body = (3 * Z.to_nat (Self.y_dim self) + 4)%nat
    ∧ Forall (printed_line (6 * Z.to_nat (Self.x_dim self) + 6)) body.
Proof.
  unfold visualize.
  destruct (visualize_rows self _) as [rows [e|]] eqn:Hrows; [done|].
  apply visualize_rows_layout in Hrows as [Hlen Hall].
  rewrite length_seqZ in Hlen.
  destruct (fold_left _ _ _) as [[t l] m] eqn:Hbottom.
  apply visualize_bottom_widths in Hbottom as (Ht & Hl & Hm).
  rewrite length_seqZ in Ht, Hl, Hm. cbn in Ht, Hl, Hm.
  intros [= <-].
  exists (rows ++ [Print t; Print l; Print m; Print l]). split_and!.
  - by rewrite <- !app_assoc.
  - rewrite length_app. cbn [length]. lia.
  - apply Forall_app. split; [done|].
    repeat (constructor; [eexists; split; [done | lia]|]). done.
Qed.

Lemma visualize_layout_witness :
  ∃ body,
    [System "clear"; Print ""; Print "    ||     |     |"; Print "  0 ||     |   -1|";
     Print "____||__A__|_____|"; Print "____||_____|_____|";
     Print "    ||     |     |"; Print "    ||   0 |   1 |";
     Print "    ||     |     |"; Print ""]%string
    = clearConsole "posix" ++ Print ""%string :: body ++ [Print ""%string]
    ∧ length body = (3 * Z.to_nat 1 + 4)%nat
    ∧ Forall (printed_line (6 * Z.to_nat 2 + 6)) body.
Proof.
  apply (visualize_layout "posix" overwritten_terminal_world). reflexivity.
Defined.

(** An infinite float is neither zero nor NaN for the tests of
    [visualize], and [int] refuses it; [int] accepts every other float that
    is not NaN. *)
Lemma infinite_cell v :
  is_infinite v = true →
  (v =? 0)%float = false ∧ array_equal_nan v = false
  ∧ int_of_float v = inl OverflowError.
Proof.
  unfold is_infinite, array_equal_nan, int_of_float.
  rewrite !FloatAxioms.eqb_spec.
  change (FloatOps.Prim2SF 0) with (SpecFloat.S754_zero false).
  by destruct (FloatOps.Prim2SF v) as [|[]| |].
Qed.

Lemma finite_cell v :
  is_infinite v = false → array_equal_nan v = false →
  ∃ n, int_of_float v = inr n.
Proof.
  unfold is_infinite, array_equal_nan, int_of_float.
  rewrite FloatAxioms.eqb_spec.
  destruct (FloatOps.Prim2SF v) as [| | |]; try done; eauto.
Qed.

Lemma visualize_cell_raises self y x v lines :
  np_getitem (Self.world self) y x = Ok v →
  match visualize_cell self y x lines with
  | inl e => e = OverflowError ∧ is_infinite v = true
  | inr _ => is_infinite v = false
  end.
Proof.
  intros Hv. unfold visualize_cell. destruct lines as [[l1 l2] l3]. rewrite Hv.
  destruct (is_infinite v) eqn:Hinf.
  - apply infinite_cell in Hinf as (-> & -> & ->). done.
  - destruct (v =? 0)%float; [done|].
    destruct (array_equal_nan v) eqn:Hnan; [done|].
    by destruct (finite_cell v Hinf Hnan) as [n ->].
Qed.

Lemma visualize_cells_raise self y xs : ∀ lines,
  (∀ x, x ∈ xs → ∃ v, np_getitem (Self.world self) y x = Ok v) →
  match for_in xs (visualize_cell self y) lines with
  | inl e => e = OverflowError ∧ existsb (infinite_at self y) xs = true
  | inr _ => existsb (infinite_at self y) xs = false
  end.
Proof.
  induction xs as [|x xs IH]; intros lines Hcells; cbn [for_in existsb]; [done|].
  destruct (Hcells x) as [v Hv]; [left|].
  pose proof (visualize_cell_raises self y x v lines Hv) as Hcell.
  assert (infinite_at self y x = is_infinite v) as ->
    by (unfold infinite_at; by rewrite Hv).
  destruct (visualize_cell self y x lines) as [e|lines'].
  - by destruct Hcell as [-> ->].
  - rewrite Hcell. cbn [orb]. apply IH. intros x' Hx'. apply Hcells. by right.
Qed.

Lemma cell_in_grid self y x :
  well_formed self → y ∈ seqZ 0 (Self.y_dim self) → x ∈ seqZ 0 (Self.x_dim self) →
  ∃ row v, Self.world self !! Z.to_nat y = Some row ∧ row !! Z.to_nat x = Some v
           ∧ np_getitem (Self.world self) y x = Ok v.
Proof.
  intros [Hs _] Hy%elem_of_seqZ Hx%elem_of_seqZ.
  destruct (np_getitem_shaped _ _ _ y x Hs) as (row & v & Hrow & Hv & Hget);
    [lia..|].
  rewrite wrap_canonical in Hrow by lia. rewrite wrap_canonical in Hv by lia.
  eauto.
Qed.

Lemma visualize_rows_raise self ys :
  well_formed self → (∀ y, y ∈ ys → y ∈ seqZ 0 (Self.y_dim self)) →
  (visualize_rows self ys).2 =
    if existsb (λ y, existsb (infinite_at self y) (seqZ 0 (Self.x_dim self))) ys
    then Some OverflowError else None.
Proof.
  intros Hwf. induction ys as [|y ys IH]; intros Hys;
    cbn [visualize_rows existsb]; [done|].
  pose proof (visualize_cells_raise self y (seqZ 0 (Self.x_dim self))
    ("    ||"%string, last_chars 6 ("      " +:+ pretty y +:+ " ||"),
     "____||"%string)) as Hrow.
  unfold visualize_row.
  destruct (for_in _ _ _) as [e|[[l1 l2] l3]].
  - destruct Hrow as [-> ->]; [|done].
    intros x Hx. destruct (cell_in_grid self y x Hwf) as (_ & v & _ & _ & ?);
      eauto. apply Hys. by left.
  - rewrite Hrow.
    2: { intros x Hx. destruct (cell_in_grid self y x Hwf) as (_ & v & _ & _ & ?);
           eauto. apply Hys. by left. }
    cbn [orb]. rewrite <- IH by (intros y' Hy'; apply Hys; by right).
    by destruct (visualize_rows self ys).
Qed.

Lemma infinite_cells self :
  well_formed self →
  existsb (λ y, existsb (infinite_at self y) (seqZ 0 (Self.x_dim self)))
    (seqZ 0 (Self.y_dim self))
  = existsb (existsb is_infinite) (Self.world self).
Proof.
  intros Hwf. apply eq_true_iff_eq. rewrite !existsb_exists. split.
  - intros (y & Hy%list_elem_of_In & (x & Hx%list_elem_of_In & Hinf)%existsb_exists).
    destruct (cell_in_grid self y x Hwf Hy Hx) as (row & v & Hrow & Hv & Hget).
    unfold infinite_at in Hinf. rewrite Hget in Hinf.
    exists row. split; [by eapply list_elem_of_In, list_elem_of_lookup_2|].
    apply existsb_exists. exists v.
    split; [by eapply list_elem_of_In, list_elem_of_lookup_2 | done].
  - intros (row & Hrow%list_elem_of_In & (v & Hv%list_elem_of_In & Hinf)%existsb_exists).
    apply list_elem_of_lookup in Hrow as [i Hi]. apply list_elem_of_lookup in Hv as [j Hj].
    pose proof Hwf as [Hs _]. pose proof Hs as [Hlen _].
    pose proof (shaped_row _ _ _ _ _ Hs Hi) as Hcols.
    pose proof (lookup_lt_Some _ _ _ Hi). pose proof (lookup_lt_Some _ _ _ Hj).
    assert (Z.of_nat i ∈ seqZ 0 (Self.y_dim self)) as Hy by (apply elem_of_seqZ; lia).
    assert (Z.of_nat j ∈ seqZ 0 (Self.x_dim self)) as Hx by (apply elem_of_seqZ; lia).
    destruct (cell_in_grid self _ _ Hwf Hy Hx) as (row' & v' & Hrow' & Hv' & Hget).
    rewrite Nat2Z.id in Hrow', Hv'.
    assert (row' = row) as -> by congruence. assert (v' = v) as -> by congruence.
    exists (Z.of_nat i). split; [by apply list_elem_of_In|].
    apply existsb_exists. exists (Z.of_nat j). split; [by apply list_elem_of_In|].
    unfold infinite_at. by rewrite Hget.
Qed.

(** X17. On a well-formed environment [visualize] raises exactly when a
    cell of the grid is infinite, and then it is the [OverflowError] of
    [int]; barrier cells (NaN) and finite rewards never make it raise. *)
Theorem visualize_raises_iff_infinite os_name self :
  well_formed self →
  (visualize os_name self).2 =
    if existsb (existsb is_infinite) (Self.world self)
    then Some OverflowError else None.
Proof.
  intros Hwf. rewrite <- (infinite_cells self Hwf).
  rewrite <- (visualize_rows_raise self _ Hwf) by done.
  unfold visualize. destruct (visualize_rows self _) as [rows [e|]]; [done|].
  by destruct (fold_left _ _ _) as [[t l] m].
Qed.

Lemma visualize_raises_iff_infinite_witness :
  (visualize "posix" default_world).2 =
    if existsb (existsb is_infinite) (Self.world default_world)
    then Some OverflowError else None.
Proof.
  exact (visualize_raises_iff_infinite "posix" default_world
           default_world_well_formed).
Defined.

(** A reward of [-inf]: the constructor accepts it, [step] returns it,
    [visualize] stops at its row. *)
Example visualize_infinite_reward :
  (self ← __init__ 2 2 0%float (0, 0) (1, 0) [(1, 1, (-infinity)%float)] [];
   Ok (visualize "posix" self))
  = Ok ([System "clear"; Print ""; Print "    ||     |     |";
         Print "  0 ||     |   10|"; Print "____||__A__|_____|"]%string,
        Some OverflowError).
Proof. reflexivity. Qed.

(** ** Rewards and moves *)

Lemma ten_is_not_zero : 10%float ≠ 0%float.
Proof.
  intros H. apply (f_equal (λ v, PrimFloat.eqb v 0)) in H. discriminate H.
Qed.

Lemma ten_is_not_penalty : 10%float ≠ (-0.5)%float.
Proof.
  intros H. apply (f_equal (λ v, PrimFloat.eqb v 10)) in H. discriminate H.
Qed.

(** X18. The terminal's 10 is only paid on arrival: in an environment whose
    terminal was given with non-negative indices and whose reward entries
    are all different from 10, a step that returns the reward 10 has put
    the agent on the terminal and returns the flag true. *)
Theorem ten_only_at_terminal
    x_dim y_dim epsilon start terminal neg_reward barrier init
    self action s pos flag self' :
  __init__ x_dim y_dim epsilon start terminal neg_reward barrier = Ok init →
  reachable init self →
  0 <= terminal.1 → 0 <= terminal.2 →
  (∀ x y v, (x, y, v) ∈ neg_reward → v ≠ 10%float) →
  step action s self = Ok (pos, 10%float, flag, self') →
  pos = (terminal.2, terminal.1) ∧ Self.agent self' = pos ∧ flag = true.
Proof.
  intros Hinit Hreach Htx Hty Hneg. unfold step.
  intros (a & _ & [H|H])%step_from_inv.
  2: { destruct H as (_ & _ & Hbad & _). by apply ten_is_not_penalty in Hbad. }
  destruct H as (Hval & -> & Hv & -> & ->).
  apply init_inversion in Hinit
    as (_ & Hreads & _ & Hx & Hy & _ & _ & _ & Hterm & _).
  pose proof (reachable_keeps_grid _ _ Hreach) as Hgrid.
  set (p := new_place a (Self.agent self)) in *.
  assert (Self.world self = Self.world init) as Hworld by (by rewrite Hgrid).
  assert (Self.terminal self = (terminal.2, terminal.1)) as Hterm'
    by (by rewrite Hgrid).
  assert (in_bounds self p.2 p.1 = in_bounds init p.2 p.1) as Hbounds
    by (by rewrite Hgrid).
  apply isValid_true_inv in Hval as (_ & Hin & v & Hv' & Hnan).
  assert (v = 10%float) as -> by congruence. clear Hv'.
  rewrite Hbounds in Hin. apply in_bounds_range in Hin as [Hi Hj].
  rewrite Hy in Hi. rewrite Hx in Hj.
  rewrite Hworld, (Hreads _ _ Hi Hj) in Hv. injection Hv as Hv.
  rewrite <- Hv in Hnan. unfold layered_grid in Hv, Hnan. cbn zeta in Hv, Hnan.
  apply barrier_layers_value in Hnan. rewrite Hnan in Hv.
  rewrite reward_layers_value in Hv.
  assert (p = (terminal.2, terminal.1)) as Hp.
  { destruct (last _) as [[[x y] v]|] eqn:Hlast.
    - subst v. apply last_Some_elem_of, list_elem_of_In, filter_In in Hlast as [Hin _].
      apply list_elem_of_In in Hin. by apply Hneg in Hin.
    - unfold put, base_layer, names in Hv.
      destruct (Z.eqb_spec (wrap y_dim terminal.2) p.1) as [H1|]; cbn in Hv;
        [|by apply eq_sym, ten_is_not_zero in Hv].
      destruct (Z.eqb_spec (wrap x_dim terminal.1) p.2) as [H2|]; cbn in Hv;
        [|by apply eq_sym, ten_is_not_zero in Hv].
      rewrite wrap_canonical in H1, H2 by done.
      destruct p as [p1 p2]. cbn in H1, H2. by subst. }
  split_and!; [done | done |]. rewrite Hterm'. by apply list_eq_true.
Qed.

Lemma ten_only_at_terminal_witness :
  (0, 4) = ((4, 0).2, (4, 0).1)
  ∧ Self.agent (Self.with_agent (0, 4) default_world) = (0, 4) ∧ true = true.
Proof.
  apply (ten_only_at_terminal 5 5 0.1%float (0, 0) (4, 0)
           [(0, 4, (-1)%float); (2, 1, (-1)%float); (4, 4, (-1)%float)]
           [(1, 2); (2, 0); (2, 3)] default_world
           (Self.with_agent (0, 3) default_world) 3 keep_sample).
  - reflexivity.
  - apply (reachable_step _ (Self.with_agent (1, 3) default_world) 0 keep_sample
             ((0, 3), 0%float, false)); [|reflexivity].
    apply (reachable_step _ (Self.with_agent (1, 2) default_world) 3 keep_sample
             ((1, 3), 0%float, false)); [|reflexivity].
    apply (reachable_step _ (Self.with_agent (1, 1) default_world) 3 keep_sample
             ((1, 2), (-1)%float, false)); [|reflexivity].
    apply (reachable_step _ (Self.with_agent (1, 0) default_world) 3 keep_sample
             ((1, 1), 0%float, false)); [|reflexivity].
    apply (reachable_step _ default_world 1 keep_sample
             ((1, 0), 0%float, false)); [|reflexivity].
    apply reachable_init.
  - cbn. lia.
  - cbn. lia.
  - intros x y v Hin Hv. subst v.
    apply list_elem_of_In in Hin. cbn in Hin.
    destruct Hin as [H|[H|[H|[]]]];
      apply (f_equal (λ r, PrimFloat.eqb r.2 10)) in H; discriminate H.
  - reflexivity.
Defined.

Lemma new_place_opposite d p :
  new_place (code (opposite d)) (new_place (code d) p) = p.
Proof. destruct p as [y x], d; cbn; f_equal; lia. Qed.

(** X19. A committed move can be undone: from a valid position, after a
    step that executed one of the four actions and changed the position, a
    step that executes the opposite action is accepted and puts the
    environment back exactly as it was. *)
Theorem committed_move_is_reversible
    self d action s pos reward flag self' action' s' :
  isValid (Self.agent self).2 (Self.agent self).1 self = Ok (true, self) →
  transition_policy action s self = Ok (code d, self) →
  step action s self = Ok (pos, reward, flag, self') →
  pos ≠ Self.agent self →
  transition_policy action' s' self' = Ok (code (opposite d), self') →
  ∃ reward',
    np_getitem (Self.world self) (Self.agent self).1 (Self.agent self).2
      = Ok reward'
    ∧ step action' s' self' =
        Ok (Self.agent self, reward',
            list_eq (Self.agent self) (Self.terminal self), self).
Proof.
  intros Hvalid Hpol Hstep Hmoved Hpol'. unfold step in Hstep.
  apply step_from_inv in Hstep as (a & Hpol2 & [H|H]).
  2: { by destruct H as (_ & -> & _). }
  assert (a = code d) as -> by congruence.
  destruct H as (_ & -> & _ & _ & ->).
  pose proof Hvalid as (_ & _ & v & Hv & _)%isValid_true_inv.
  exists v. split; [done|].
  unfold step. rewrite step_from_run, Hpol'. cbn zeta.
  cbn [Self.agent Self.with_agent]. rewrite new_place_opposite.
  rewrite (isValid_with_agent _ _ _ _ _ Hvalid).
  cbn [Self.world Self.terminal Self.with_agent]. rewrite Hv.
  do 3 f_equal. by destruct self.
Qed.

Lemma committed_move_is_reversible_witness :
  ∃ reward',
    np_getitem (Self.world quiet_world) 0 0 = Ok reward'
    ∧ step 0 keep_sample (Self.with_agent (1, 0) quiet_world) =
        Ok ((0, 0), reward', list_eq (0, 0) (0, 4), quiet_world).
Proof.
  apply (committed_move_is_reversible quiet_world down 1 keep_sample
           (1, 0) 0%float false (Self.with_agent (1, 0) quiet_world)
           0 keep_sample).
  - reflexivity.
  - reflexivity.
  - reflexivity.
  - intros [=].
  - reflexivity.
Defined.
